(** * audio-wer-script: the normalisation and transcription pipeline of evaluate.js

    A shallow embedding of [src/evaluate.js].  The script is sequential
    effectful code over three kinds of environment:
    - the file system, reached through Node's [fs] and [path] modules;
    - external tools run with [execSync] (ffmpeg, asr-eval);
    - the streaming transcription service.

    The file system is a finite map from paths to nodes, the console and the
    commands that were run are a trace, the external tools and the service are
    the fields of a class [Environment] over which every statement is
    universally quantified.  Exceptions and [try]/[catch] are an error monad
    layered on the state.

    Conventions of the model:
    - a JavaScript string is a [string]; its characters are code units in the
      range 0..255;
    - a path is the list of the segments of an absolute, normalised POSIX
      path, which is what [path.resolve] returns and what [path.join] keeps
      when a plain file name is appended. *)

From stdpp Require Import gmap strings list.
From Equations Require Import Equations.
From Stdlib Require Import Strings.Byte Strings.Ascii.

Set Default Proof Using "Type".

Abbreviation path := (list string).

(** ** JavaScript strings *)

Module JS.

(** [WhiteSpace] and [LineTerminator] code units below 256: TAB, LF, VT,
    FF, CR, SP and NBSP. *)
Definition isWhiteSpace (c : ascii) : bool :=
  let n := nat_of_ascii c in
  (n =? 9) || (n =? 10) || (n =? 11) || (n =? 12) || (n =? 13)
  || (n =? 32) || (n =? 160).

Fixpoint trimStart (s : string) : string :=
  match s with
  | EmptyString => EmptyString
  | String c s' => if isWhiteSpace c then trimStart s' else s
  end.

Fixpoint trimEnd (s : string) : string :=
  match s with
  | EmptyString => EmptyString
  | String c s' =>
      match trimEnd s' with
      | EmptyString => if isWhiteSpace c then EmptyString else String c EmptyString
      | r => String c r
      end
  end.

(** [String.prototype.trim]: white space is removed at both ends. *)
Definition trim (s : string) : string := trimEnd (trimStart s).

Definition lowerChar (c : ascii) : ascii :=
  let n := nat_of_ascii c in
  if ((65 <=? n) && (n <=? 90))
     || ((192 <=? n) && (n <=? 222) && negb (n =? 215))
  then ascii_of_nat (n + 32) else c.

Fixpoint toLowerCase (s : string) : string :=
  match s with
  | EmptyString => EmptyString
  | String c s' => String (lowerChar c) (toLowerCase s')
  end.

(** [s.includes(sub)] *)
Fixpoint includes (s sub : string) : bool :=
  if String.prefix sub s then true
  else match s with
       | EmptyString => false
       | String _ s' => includes s' sub
       end.

(** [s.slice(n)] for [n >= 0] *)
Fixpoint slice (n : nat) (s : string) : string :=
  match n, s with
  | 0, _ => s
  | S n', String _ s' => slice n' s'
  | S _, EmptyString => EmptyString
  end.

(** [s.slice(0, n)] *)
Fixpoint sliceTo (n : nat) (s : string) : string :=
  match n, s with
  | S n', String c s' => String c (sliceTo n' s')
  | _, _ => EmptyString
  end.

(** [s.lastIndexOf(c)], [None] for -1. *)
Fixpoint lastIndexOf (c : ascii) (s : string) : option nat :=
  match s with
  | EmptyString => None
  | String a s' =>
      match lastIndexOf c s' with
      | Some i => Some (S i)
      | None => if Ascii.eqb a c then Some 0 else None
      end
  end.

Definition endsWith (s suffix : string) : bool :=
  String.eqb (slice (String.length s - String.length suffix) s) suffix
  && (String.length suffix <=? String.length s).

(** Truthiness of a string: only the empty string is falsy. *)
Definition truthy (s : string) : bool :=
  match s with EmptyString => false | String _ _ => true end.

(** Truthiness of a value that is a string or [null]/[undefined]. *)
Definition truthy_opt (v : option string) : bool :=
  match v with Some s => truthy s | None => false end.

(** [array.includes(x)] on an array of strings. *)
Definition arrayIncludes (l : list string) (x : string) : bool :=
  existsb (String.eqb x) l.

(** The bytes [fs.writeFileSync] stores for a string (UTF-8). *)
Definition utf8 (s : string) : list byte :=
  flat_map
    (fun c : ascii =>
       let n := nat_of_ascii c in
       if n <? 128 then [byte_of_ascii c]
       else [byte_of_ascii (ascii_of_nat (192 + n / 64));
             byte_of_ascii (ascii_of_nat (128 + n mod 64))])
    (String.list_ascii_of_string s).

End JS.

(** ** Node's [path] module, on normalised absolute paths *)

Module Path.

(** The textual form of a path, as it appears in messages and commands. *)
Definition show (p : path) : string :=
  match p with
  | [] => "/"
  | _ => String.concat "" (map (fun seg => "/" +:+ seg) p)
  end.

Definition dirname (p : path) : path := removelast p.

Definition basename (p : path) : string := List.last p "".

(** [path.extname] of a file name: from the last dot to the end, and
    empty when there is no dot, when the only dot starts the name, or when
    the name is [..]. *)
Definition extnameOf (name : string) : string :=
  match JS.lastIndexOf "." name with
  | None => ""
  | Some 0 => ""
  | Some i => if String.eqb name ".." then "" else JS.slice i name
  end.

Definition extname (p : path) : string := extnameOf (basename p).

(** [path.basename(p, ext)]: the suffix is removed when the name ends with
    it and is longer than it. *)
Definition basenameExt (p : path) (ext : string) : string :=
  let name := basename p in
  if JS.truthy ext && JS.endsWith name ext
     && (String.length ext <? String.length name)
  then JS.sliceTo (String.length name - String.length ext) name
  else name.

(** [path.parse(file).name] of a file name. *)
Definition parseName (file : string) : string :=
  JS.sliceTo (String.length file - String.length (extnameOf file)) file.

(** [path.join(dir, name)] for a plain file name. *)
Definition join (dir : path) (name : string) : path := dir ++ [name].

(** Splitting a textual path at its slashes. *)
Fixpoint split (s : string) : list string :=
  match s with
  | EmptyString => [EmptyString]
  | String c s' =>
      if Ascii.eqb c "/" then EmptyString :: split s'
      else match split s' with
           | seg :: rest => String c seg :: rest
           | [] => [String c EmptyString]
           end
  end.



End Path.

(** ** The file system behind Node's [fs] module *)

Inductive node :=
| File (data : list byte)
| Dir.

(** A JavaScript [Error].  [execSync] attaches the captured output of the
    failed command; other errors carry a message only. *)
Record error := Error {
  message : string;
  stdout : option string;
  stderr : option string;
}.

Definition plainError (msg : string) : error :=
  {| message := msg; stdout := None; stderr := None |}.

(** The outcome of a call that may throw. *)
Inductive result (A : Type) :=
| Ok (a : A)
| Throw (e : error).
Arguments Ok {A} a.
Arguments Throw {A} e.

Module FS.

(** The root always exists and is a directory. *)
Definition stat (fs : gmap path node) (p : path) : option node :=
  match p with
  | [] => Some Dir
  | _ => fs !! p
  end.

Definition existsSync (fs : gmap path node) (p : path) : bool :=
  match stat fs p with Some _ => true | None => false end.

Definition isDirectory (fs : gmap path node) (p : path) : bool :=
  match stat fs p with Some Dir => true | _ => false end.

Definition isFile (fs : gmap path node) (p : path) : bool :=
  match stat fs p with Some (File _) => true | _ => false end.

Definition readFile (fs : gmap path node) (p : path) : option (list byte) :=
  match stat fs p with Some (File data) => Some data | _ => None end.

(** The path itself and every directory above it, the root excluded. *)
Definition ancestors (p : path) : list path :=
  map (fun n => take n p) (seq 1 (length p)).

(** [fs.mkdirSync(p, { recursive: true })] *)
Definition mkdirSyncRecursive (fs : gmap path node) (p : path)
  : result (gmap path node) :=
  if existsb (isFile fs) (ancestors p)
  then Throw (plainError ("EEXIST: file already exists, mkdir '" +:+ Path.show p +:+ "'"))
  else Ok (foldr (fun q acc => <[q := Dir]> acc) fs (ancestors p)).

(** [fs.mkdirSync(p)] *)
Definition mkdirSync (fs : gmap path node) (p : path)
  : result (gmap path node) :=
  if existsSync fs p
  then Throw (plainError ("EEXIST: file already exists, mkdir '" +:+ Path.show p +:+ "'"))
  else if isDirectory fs (Path.dirname p)
  then Ok (<[p := Dir]> fs)
  else Throw (plainError ("ENOENT: no such file or directory, mkdir '" +:+ Path.show p +:+ "'")).

(** [fs.writeFileSync(p, data)]: the directory must exist and [p] must
    not be a directory; an existing file is replaced. *)
Definition writeFileSync (fs : gmap path node) (p : path) (data : list byte)
  : result (gmap path node) :=
  if isDirectory fs p
  then Throw (plainError ("EISDIR: illegal operation on a directory, open '" +:+ Path.show p +:+ "'"))
  else if isDirectory fs (Path.dirname p)
  then Ok (<[p := File data]> fs)
  else Throw (plainError ("ENOENT: no such file or directory, open '" +:+ Path.show p +:+ "'")).

(** [fs.renameSync(from, to)] of a regular file: the file leaves [from]
    and replaces whatever file is at [to].  The script renames only files
    it has just read or written; moving a directory tree is outside the
    model and reported as an error. *)
Definition renameSync (fs : gmap path node) (from to : path)
  : result (gmap path node) :=
  match stat fs from with
  | Some (File data) =>
      if isDirectory fs to
      then Throw (plainError ("EISDIR: illegal operation on a directory, rename '" +:+ Path.show from +:+ "'"))
      else if isDirectory fs (Path.dirname to)
      then Ok (<[to := File data]> (delete from fs))
      else Throw (plainError ("ENOENT: no such file or directory, rename '" +:+ Path.show from +:+ "'"))
  | Some Dir =>
      Throw (plainError ("EPERM: operation not permitted, rename '" +:+ Path.show from +:+ "'"))
  | None =>
      Throw (plainError ("ENOENT: no such file or directory, rename '" +:+ Path.show from +:+ "'"))
  end.

(** [fs.readdirSync(d)]: the names of the entries of [d]. *)
Definition readdirSync (fs : gmap path node) (d : path) : result (list string) :=
  if isDirectory fs d
  then Ok (map Path.basename
             (filter (fun k : path => k ≠ [] ∧ Path.dirname k = d)
                     (elements (dom fs))))
  else Throw (plainError ("ENOTDIR: not a directory, scandir '" +:+ Path.show d +:+ "'")).

End FS.

(** [fs.createReadStream(file, { highWaterMark })] on a regular file: every
    read asks for [highWaterMark] bytes, and a read that returns no byte ends
    the stream. *)
Equations? createReadStream (highWaterMark : nat) (data : list byte)
  : list (list byte) by wf (length data) lt :=
  createReadStream 0 _ := [];
  createReadStream (S n) [] := [];
  createReadStream (S n) (b :: rest) :=
    take (S n) (b :: rest) :: createReadStream (S n) (drop n rest).
Proof. rewrite length_drop. simpl. lia. Qed.

(** ** The world the script runs in *)

Inductive level := LOG | WARN | ERROR.

(** The commands handed to [execSync]:
    - [ffmpeg -i "<input>" -f null - 2>&1]
    - [ffmpeg -y -i "<input>" -ac 1 -ar 16000 -f wav -acodec pcm_s16le "<output>"]
    - [asr-eval --original "<reference>" --generated "<hypothesis>" ...] *)
Inductive command :=
| FfmpegCheck (input : path)
| FfmpegConvert (input output : path)
| AsrEval (reference hypothesis : path).

(** What the script does to its surroundings besides the file system:
    console output and commands handed to the shell. *)
Inductive event :=
| Console (l : level) (msg : string)
| Exec (cmd : command).

Record World := mkWorld {
  fsys : gmap path node;
  trace : list event;        (* oldest first *)
  results : list string;     (* blocks appended to results.txt, oldest first *)
}.

(** State with exceptions: a computation changes the world and either
    returns or throws; what it did before throwing stays done. *)
Definition M (A : Type) : Type := World -> World * result A.

Definition ret {A} (a : A) : M A := fun w => (w, Ok a).

Definition bind {A B} (m : M A) (k : A -> M B) : M B :=
  fun w =>
    match m w with
    | (w', Ok a) => k a w'
    | (w', Throw e) => (w', Throw e)
    end.

Definition throw {A} (e : error) : M A := fun w => (w, Throw e).

(** [try { body } catch (error) { handler }] *)
Definition try_catch {A} (body : M A) (handler : error -> M A) : M A :=
  fun w =>
    match body w with
    | (w', Ok a) => (w', Ok a)
    | (w', Throw e) => handler e w'
    end.

Declare Scope js_scope.
Delimit Scope js_scope with js.
Notation "x <- m ;; k" := (bind m (fun x => k))
  (at level 100, m at next level, right associativity) : js_scope.
Notation "m ;; k" := (bind m (fun _ => k))
  (at level 100, right associativity) : js_scope.
Notation "'try' body 'catch' handler" := (try_catch body handler)
  (at level 100, body at level 99, handler at level 99) : js_scope.
Open Scope js_scope.

Definition getFs : M (gmap path node) := fun w => (w, Ok (fsys w)).

Definition putFs (fs : gmap path node) : M unit :=
  fun w => (mkWorld fs (trace w) (results w), Ok tt).

Definition emit (e : event) : M unit :=
  fun w => (mkWorld (fsys w) (trace w ++ [e]) (results w), Ok tt).

Definition console_log (msg : string) : M unit := emit (Console LOG msg).
Definition console_warn (msg : string) : M unit := emit (Console WARN msg).
Definition console_error (msg : string) : M unit := emit (Console ERROR msg).

(** A file-system call that changes the file system or throws. *)
Definition fsUpdate (op : gmap path node -> result (gmap path node)) : M unit :=
  fs <- getFs ;;
  match op fs with
  | Ok fs' => putFs fs'
  | Throw e => throw e
  end.

(** A file-system call that only reads. *)
Definition fsQuery {A} (op : gmap path node -> A) : M A :=
  fs <- getFs ;; ret (op fs).

Definition liftResult {A} (r : result A) : M A :=
  match r with
  | Ok a => ret a
  | Throw e => throw e
  end.

(** [for (const x of l) body], threading the variable the body updates. *)
Fixpoint for_of {A S} (l : list A) (body : S -> A -> M S) (s : S) : M S :=
  match l with
  | [] => ret s
  | x :: l' => s' <- body s x ;; for_of l' body s'
  end.

(** ** The transcription service and the external tools *)

Record Alternative := { Transcript : string }.

Record Result := { IsPartial : bool; Alternatives : list Alternative }.

(** One item of [response.TranscriptResultStream]; [Results] stands for
    [event.TranscriptEvent.Transcript.Results]. *)
Record TranscriptEvent := { Results : list Result }.

(** One item of the outbound stream: [{ AudioEvent: { AudioChunk } }]. *)
Record AudioEvent := { AudioChunk : list byte }.

(** How an asynchronous stream finishes: it is exhausted, or iterating it
    throws. *)
Inductive stream_end :=
| EndOfStream
| StreamError (e : error).

(** Everything outside the script.  A tool is a function of what it reads;
    [Throw] is a non-zero exit status (or a rejected request). *)
Class Environment := {
  cwd : path;
  ffmpeg_probe : path -> list byte -> result string;
  ffmpeg_convert : path -> path -> list byte -> result (list byte);
  transcribe_service :
    string -> string -> N -> list AudioEvent ->
    result (list TranscriptEvent * stream_end);
  asr_eval : option (list byte) -> option (list byte) -> result string;
}.

(** ** evaluate.js *)

Definition FFMPEG_PATH : string := "/opt/homebrew/bin/ffmpeg".
Definition LANGUAGE : string := "en-GB".
Definition SAMPLE_RATE : N := 16000%N.
Definition MEDIA_ENCODING_FORMAT : string := "pcm".
Definition OUTPUT_DIR : string := "output".
Definition SUPPORTED_AUDIO_FORMATS : list string :=
  ["wav"; "mp3"; "m4a"; "mp4"; "flac"; "ogg"].

Definition newline : string := String (ascii_of_nat 10) EmptyString.

Section Script.
Context {env : Environment}.

(** [execSync] records the command in the trace before running it. *)

Definition execFfmpegCheck (inputPath : path) : M string :=
  emit (Exec (FfmpegCheck inputPath)) ;;
  fs <- getFs ;;
  match FS.readFile fs inputPath with
  | Some data => liftResult (ffmpeg_probe inputPath data)
  | None =>
      throw (plainError ("Command failed: " +:+ FFMPEG_PATH +:+ " -i "
                         +:+ Path.show inputPath))
  end.

Definition execFfmpegConvert (inputPath convertedPath : path) : M unit :=
  emit (Exec (FfmpegConvert inputPath convertedPath)) ;;
  fs <- getFs ;;
  match FS.readFile fs inputPath with
  | Some data =>
      converted <- liftResult (ffmpeg_convert inputPath convertedPath data) ;;
      fsUpdate (fun fs => FS.writeFileSync fs convertedPath converted)
  | None =>
      throw (plainError ("Command failed: " +:+ FFMPEG_PATH +:+ " -y -i "
                         +:+ Path.show inputPath))
  end.

Definition execAsrEval (referencePath hypothesisPath : path) : M string :=
  emit (Exec (AsrEval referencePath hypothesisPath)) ;;
  fs <- getFs ;;
  liftResult (asr_eval (FS.readFile fs referencePath)
                       (FS.readFile fs hypothesisPath)).

(** Top level of the module, lines 17-20. *)
Definition ensureOutputDir : M unit :=
  exists_ <- fsQuery (fun fs => FS.existsSync fs (Path.join cwd OUTPUT_DIR)) ;;
  if negb exists_
  then fsUpdate (fun fs => FS.mkdirSync fs (Path.join cwd OUTPUT_DIR))
  else ret tt.

(** Lines 22-27.  The generator is consumed by the service client; the
    file is opened when the first chunk is requested. *)
Definition audioStreamGenerator (filePath : path) : M (list AudioEvent) :=
  fs <- getFs ;;
  match FS.readFile fs filePath with
  | Some data =>
      ret (map (fun chunk => {| AudioChunk := chunk |})
               (createReadStream 4096 data))
  | None =>
      throw (plainError ("ENOENT: no such file or directory, open '"
                         +:+ Path.show filePath +:+ "'"))
  end.

Record StartStreamTranscriptionCommand := {
  LanguageCode : string;
  MediaEncoding : string;
  MediaSampleRateHertz : N;
  AudioStream : M (list AudioEvent);
}.

(** [client.send(command)] *)
Definition client_send (c : StartStreamTranscriptionCommand)
  : M (list TranscriptEvent * stream_end) :=
  chunks <- AudioStream c ;;
  liftResult (transcribe_service (LanguageCode c) (MediaEncoding c)
                                 (MediaSampleRateHertz c) chunks).

(** [for await (const x of stream) body] *)
Definition for_await {A S} (stream : list A * stream_end)
           (body : S -> A -> M S) (s : S) : M S :=
  s' <- for_of (fst stream) body s ;;
  match snd stream with
  | EndOfStream => ret s'
  | StreamError e => throw e
  end.

(** Lines 29-64. *)
Definition transcribeAudio (filePath : path) : M (option string) :=
  try (
    let command :=
      {| LanguageCode := LANGUAGE;
         MediaEncoding := MEDIA_ENCODING_FORMAT;
         MediaSampleRateHertz := SAMPLE_RATE;
         AudioStream := audioStreamGenerator filePath |} in
    let transcript := "" in
    response <- client_send command ;;
    transcript <-
      for_await response (fun transcript event =>
        let results := Results event in
        for_of results (fun transcript result =>
          if negb (IsPartial result) then
            match Alternatives result with
            | alternative :: _ =>
                ret (transcript +:+ (Transcript alternative +:+ " "))
            | [] =>
                throw (plainError
                  "Cannot read properties of undefined (reading 'Transcript')")
            end
          else ret transcript) transcript) transcript ;;
    ret (Some (JS.trim transcript))
  ) catch (fun error =>
    console_error ("Error during transcription:" +:+ " " +:+ message error) ;;
    ret None).

(** Lines 66-82. *)
Definition calculateMetrics (referencePath hypothesisPath : path)
  : M (option string) :=
  try (
    output <- execAsrEval referencePath hypothesisPath ;;
    ret (Some output)
  ) catch (fun error =>
    output <-
      (if JS.truthy_opt (stdout error)
       then ret (default "" (stdout error))
       else match stderr error with
            | Some text => ret text
            | None =>
                throw (plainError
                  "Cannot read properties of undefined (reading 'toString')")
            end) ;;
    if JS.truthy output
    then ret (Some output)
    else
      console_error ("Error calculating metrics:" +:+ " " +:+ message error) ;;
      ret None).

(** The compatibility check of [ensureAudioCompatibility], lines 152-160:
    [true] when the function is about to return the input path. *)
Definition inspect (inputPath : path) : M bool :=
  let ext := JS.toLowerCase (JS.slice 1 (Path.extname inputPath)) in
  if String.eqb ext "wav" then
    ffmpegOutput <- execFfmpegCheck inputPath ;;
    ret (JS.includes ffmpegOutput "pcm_s16le"
         && JS.includes ffmpegOutput "16000 Hz"
         && JS.includes ffmpegOutput "mono")
  else ret false.

(** The conversion of [ensureAudioCompatibility], lines 166-185. *)
Definition normalize (inputPath : path) : M (option path) :=
  let dir := Path.dirname inputPath in
  let baseName := Path.basenameExt inputPath (Path.extname inputPath) in
  let convertedPath := Path.join dir (baseName +:+ ".wav") in
  let olderDir := Path.join dir "older" in
  exists_ <- fsQuery (fun fs => FS.existsSync fs olderDir) ;;
  (if negb exists_
   then fsUpdate (fun fs => FS.mkdirSyncRecursive fs olderDir)
   else ret tt) ;;
  console_log ("Converting incompatible or non-WAV audio file: "
               +:+ Path.show inputPath) ;;
  execFfmpegConvert inputPath convertedPath ;;
  let movedPath := Path.join olderDir (Path.basename inputPath) in
  fsUpdate (fun fs => FS.renameSync fs inputPath movedPath) ;;
  console_log ("Moved original file to: " +:+ Path.show movedPath) ;;
  fsUpdate (fun fs =>
    FS.renameSync fs convertedPath (Path.join dir (baseName +:+ ".wav"))) ;;
  console_log ("Renamed converted file to: " +:+ baseName +:+ ".wav") ;;
  ret (Some (Path.join dir (baseName +:+ ".wav"))).

(** Lines 141-190. *)
Definition ensureAudioCompatibility (inputPath : path) : M (option path) :=
  try (
    console_log ("Checking audio file format: " +:+ Path.show inputPath) ;;
    compatible <- inspect inputPath ;;
    if compatible then
      console_log ("Audio file is already compatible: "
                   +:+ Path.show inputPath) ;;
      ret (Some inputPath)
    else normalize inputPath
  ) catch (fun error =>
    console_error ("Error processing audio file: " +:+ Path.show inputPath
                   +:+ " " +:+ message error) ;;
    ret None).

(** [resultStream.write(s)] on the stream opened with [flags: 'a']. *)
Definition resultStream_write (s : string) : M unit :=
  fun w => (mkWorld (fsys w) (trace w) (results w ++ [s]), Ok tt).

(** The body of the loop of [processFiles], lines 97-135; [continue] is
    the end of the body. *)
Definition processFile (audioDir referenceDir : path) (file : string) : M unit :=
  let baseName := Path.parseName file in
  let originalAudioPath := Path.join audioDir file in
  let referencePath := Path.join referenceDir (baseName +:+ ".txt") in
  let outputPath := Path.join (Path.join cwd OUTPUT_DIR) (baseName +:+ ".txt") in
  let outputPathText := OUTPUT_DIR +:+ "/" +:+ baseName +:+ ".txt" in
  console_log ("Processing: " +:+ file) ;;
  audioPath <- ensureAudioCompatibility originalAudioPath ;;
  match audioPath with
  | None =>
      console_error ("Skipping file due to conversion error: " +:+ file)
  | Some audioPath =>
      try (
        transcript <- transcribeAudio audioPath ;;
        if JS.truthy_opt transcript then
          fsUpdate (fun fs =>
            FS.writeFileSync fs outputPath (JS.utf8 (default "" transcript))) ;;
          console_log ("Transcription completed: " +:+ outputPathText) ;;
          referenceExists <- fsQuery (fun fs => FS.existsSync fs referencePath) ;;
          if negb referenceExists then
            console_warn ("Warning: Reference file not found: "
                          +:+ Path.show referencePath)
          else
            evaluationOutput <- calculateMetrics referencePath outputPath ;;
            if JS.truthy_opt evaluationOutput then
              let resultString :=
                "File: " +:+ baseName +:+ newline
                +:+ default "" evaluationOutput +:+ newline in
              resultStream_write resultString ;;
              console_log ("Results for " +:+ file +:+ ":" +:+ newline
                           +:+ resultString)
            else
              console_error ("Failed to calculate metrics for " +:+ file)
        else
          console_error ("Failed to transcribe " +:+ file)
      ) catch (fun error =>
        console_error ("Error processing " +:+ file +:+ ":" +:+ " "
                       +:+ message error))
  end.

(** Lines 84-139. *)
Definition processFiles (audioDir referenceDir : path) : M unit :=
  names <- (fs <- getFs ;; liftResult (FS.readdirSync fs audioDir)) ;;
  let audioFiles :=
    List.filter
      (fun file =>
         JS.arrayIncludes SUPPORTED_AUDIO_FORMATS
           (JS.toLowerCase (JS.slice 1 (Path.extnameOf file))))
      names in
  for_of audioFiles (fun _ file => processFile audioDir referenceDir file) tt.



(** What the service answers when it is sent the chunks of [data]. *)
Definition answer (data : list byte) : result (list TranscriptEvent * stream_end) :=
  transcribe_service LANGUAGE MEDIA_ENCODING_FORMAT SAMPLE_RATE
    (map (fun chunk => {| AudioChunk := chunk |}) (createReadStream 4096 data)).

End Script.

(** ** The vocabulary of the statements *)

(** The texts that count for a transcript: the first alternative of every
    result that is not partial, in stream order. *)
Definition finalTexts (events : list TranscriptEvent) : list string :=
  flat_map
    (fun event =>
       flat_map
         (fun r =>
            if IsPartial r then []
            else match Alternatives r with
                 | alternative :: _ => [Transcript alternative]
                 | [] => []
                 end)
         (Results event))
    events.

(** Every text followed by a single space, concatenated. *)
Fixpoint spaceTerminated (texts : list string) : string :=
  match texts with
  | [] => ""
  | text :: texts' => (text +:+ " ") +:+ spaceTerminated texts'
  end.

(** Every result that is not partial has a first alternative. *)
Definition wellFormed (events : list TranscriptEvent) : Prop :=
  Forall (fun event =>
            Forall (fun r => IsPartial r = false -> Alternatives r <> [])
                   (Results event))
         events.

(** A stream item that carries a single result. *)
Definition final (text : string) : TranscriptEvent :=
  {| Results := [ {| IsPartial := false;
                     Alternatives := [ {| Transcript := text |} ] |} ] |}.

Definition partial (text : string) : TranscriptEvent :=
  {| Results := [ {| IsPartial := true;
                     Alternatives := [ {| Transcript := text |} ] |} ] |}.

(** The world after one more console line or command. *)
Definition after (w : World) (es : list event) : World :=
  mkWorld (fsys w) (trace w ++ es) (results w).


(** The files of the audio directory the loop goes over. *)
Definition isSupported (file : string) : bool :=
  JS.arrayIncludes SUPPORTED_AUDIO_FORMATS
    (JS.toLowerCase (JS.slice 1 (Path.extnameOf file))).

(** The trace of [w'] continues the trace of [w]. *)
Definition grows (w w' : World) : Prop := exists es, trace w' = trace w ++ es.

(** A computation that never takes anything back from the trace. *)
Definition monotone {A} (m : M A) : Prop := forall w, grows w (fst (m w)).

(** The container extension the script compares with ['wav']. *)
Definition containerExt (p : path) : string :=
  JS.toLowerCase (JS.slice 1 (Path.extname p)).

(** The three markers looked for in the output of the probe. *)
Definition reportsTarget (ffmpegOutput : string) : bool :=
  JS.includes ffmpegOutput "pcm_s16le"
  && JS.includes ffmpegOutput "16000 Hz"
  && JS.includes ffmpegOutput "mono".

(** A concrete environment and file system for the examples. *)
(** *** Further vocabulary *)

(** A final result without any alternative. *)
Definition lacksAlternative (r : Result) : Prop :=
  IsPartial r = false /\ Alternatives r = [].

(** Some event of the stream holds such a result. *)
Definition malformed (events : list TranscriptEvent) : Prop :=
  Exists (fun event => Exists lacksAlternative (Results event)) events.

(** What reading [.Transcript] of [Alternatives[0]] throws then. *)
Definition transcriptTypeError : error :=
  plainError "Cannot read properties of undefined (reading 'Transcript')".

(** A computation relates every world to the world it leaves. *)
Definition respects (R : World -> World -> Prop) {A} (m : M A) : Prop :=
  forall w, R w (fst (m w)).

(** The results are what they were. *)
Definition sameResults (w w' : World) : Prop := results w' = results w.
#[global] Arguments sameResults _ _ /.

(** The regular files at the paths [P] are what they were. *)
Definition sameFiles (P : path -> Prop) (w w' : World) : Prop :=
  forall x, P x -> FS.readFile (fsys w') x = FS.readFile (fsys w) x.

(** The trace has grown by events that all satisfy [Q]. *)
Definition emitsOnly (Q : event -> Prop) (w w' : World) : Prop :=
  exists es, trace w' = trace w ++ es /\ Forall Q es.


(** [resultString] of [processFiles], line 124. *)
Definition resultString (baseName evaluationOutput : string) : string :=
  "File: " +:+ baseName +:+ newline +:+ evaluationOutput +:+ newline.

(** The results have grown by one block for some of [files], in the order
    of [files], each with an evaluation output that is not empty. *)
Definition reported (files : list string) (w w' : World) : Prop :=
  exists reports : list (string * string),
    results w' = results w
                 ++ map (fun r => resultString (Path.parseName (fst r)) (snd r)) reports
    /\ sublist (map fst reports) files
    /\ Forall (fun r => snd r <> "") reports.



Module Sample.

Definition bytes (s : string) : list byte := String.list_byte_of_string s.

(** ffmpeg as far as the script can tell: converting prefixes the data
    with a header and is refused when the output is the input, probing
    recognises that header. *)
Definition probe (data : list byte) : string :=
  match data with
  | "R"%byte :: "I"%byte :: "F"%byte :: "F"%byte :: _ =>
      "Stream #0:0: Audio: pcm_s16le, 16000 Hz, mono, s16, 256 kb/s"
  | _ => "Stream #0:0: Audio: pcm_s24le, 44100 Hz, stereo, s32"
  end.

Definition fs0 : gmap path node :=
  list_to_map
    [ (["data"], Dir); (["data"; "audio"], Dir); (["data"; "ref"], Dir);
      (["home"], Dir); (["home"; "output"], Dir);
      (["data"; "audio"; "a.mp3"], File (bytes "mp3 audio"));
      (["data"; "audio"; "b.wav"], File (bytes "RIFF audio"));
      (["data"; "audio"; "c.wav"], File (bytes "RF64 audio"));
      (["data"; "audio"; "notes.txt"], File (bytes "not audio"));
      (["data"; "ref"; "a.txt"], File (bytes "hello world")) ].

Definition w0 : World := mkWorld fs0 [] [].


(** The service answers every request with the same stream. *)
Definition envWith (probeFails : bool) (convertFails : bool)
           (answer : result (list TranscriptEvent * stream_end))
  : Environment :=
  {| cwd := ["home"];
     ffmpeg_probe := fun _ data =>
       if probeFails then Throw (plainError "Command failed: ffmpeg -i")
       else Ok (probe data);
     ffmpeg_convert := fun input output data =>
       if convertFails || bool_decide (input = output)
       then Throw (plainError "Command failed: ffmpeg -y -i")
       else Ok (bytes "RIFF" ++ data);
     transcribe_service := fun _ _ _ _ => answer;
     asr_eval := fun reference hypothesis =>
       match reference, hypothesis with
       | Some _, Some _ => Ok "WER: 0"
       | _, _ =>
           Throw {| message := "Command failed: asr-eval";
                    stdout := Some ""; stderr := Some "no such file" |}
       end |}.

Definition helloWorld : list TranscriptEvent :=
  [partial "a"; final "hello"; partial "b"; final "world"].

Definition env : Environment :=
  envWith false false (Ok (helloWorld, EndOfStream)).

End Sample.

(** The sample environment with an evaluation tool that succeeds and prints
    nothing. *)
Module Quiet.

Definition env : Environment :=
  {| cwd := ["home"];
     ffmpeg_probe := @ffmpeg_probe Sample.env;
     ffmpeg_convert := @ffmpeg_convert Sample.env;
     transcribe_service := @transcribe_service Sample.env;
     asr_eval := fun _ _ => Ok "" |}.

End Quiet.

(** ** Properties *)

(** *** Reading a file in chunks *)

Lemma createReadStream_concat (hwm : nat) (data : list byte) :
  0 < hwm -> concat (createReadStream hwm data) = data.
Proof.
  intros Hpos. funelim (createReadStream hwm data); simp createReadStream.
  - lia.
  - reflexivity.
  - simpl. f_equal.
    match goal with IH : _ -> concat _ = _ |- _ => rewrite IH by lia end.
    apply take_drop.
Qed.

Lemma createReadStream_bounds (hwm : nat) (data chunk : list byte) :
  chunk ∈ createReadStream hwm data -> 0 < length chunk <= hwm.
Proof.
  funelim (createReadStream hwm data); simp createReadStream.
  - intros Hin. inversion Hin.
  - intros Hin. inversion Hin.
  - intros Hin. apply elem_of_cons in Hin as [-> | Hin].
    + simpl. rewrite length_take. lia.
    + eauto.
Qed.

Lemma createReadStream_full (hwm : nat) (data : list byte) (i : nat) (chunk : list byte) :
  createReadStream hwm data !! i = Some chunk ->
  S i < length (createReadStream hwm data) ->
  length chunk = hwm.
Proof.
  revert i. funelim (createReadStream hwm data); simp createReadStream.
  - intros i Hi. discriminate.
  - intros i Hi. discriminate.
  - intros [|i] Hi Hlt.
    + simpl in Hi. injection Hi as <-. simpl in Hlt.
      destruct (drop n rest) as [|b' rest'] eqn:Hdrop.
      * simp createReadStream in Hlt. simpl in Hlt. lia.
      * simpl. rewrite length_take.
        assert (length (drop n rest) = length rest - n) by apply length_drop.
        rewrite Hdrop in *. simpl in *. lia.
    + simpl in Hi, Hlt. 
      match goal with
      | IH : context [length _ = _] |- _ => eapply IH; [eassumption | lia]
      end.
Qed.

(** *** Strings *)

Lemma app_cons (c : ascii) (s1 s2 : string) :
  String c s1 +:+ s2 = String c (s1 +:+ s2).
Proof. reflexivity. Qed.

Lemma app_empty_r (s : string) : s +:+ "" = s.
Proof. induction s as [|c s IH]; [reflexivity|]. rewrite app_cons, IH. reflexivity. Qed.

Lemma app_assoc_string (s1 s2 s3 : string) :
  (s1 +:+ s2) +:+ s3 = s1 +:+ (s2 +:+ s3).
Proof.
  induction s1 as [|c s1 IH]; [reflexivity|].
  rewrite !app_cons, IH. reflexivity.
Qed.

Lemma trim_spaces (texts : list string) :
  Forall (fun text => text = "") texts ->
  JS.trim (spaceTerminated texts) = "".
Proof.
  induction 1 as [|text texts -> _ IH]; [reflexivity|].
  exact IH.
Qed.

Lemma spaceTerminated_app (l1 l2 : list string) :
  spaceTerminated (l1 ++ l2) = spaceTerminated l1 +:+ spaceTerminated l2.
Proof.
  induction l1 as [|text l1 IH]; [reflexivity|].
  simpl. rewrite IH, !app_assoc_string. reflexivity.
Qed.

Lemma finalTexts_cons (event : TranscriptEvent) (events : list TranscriptEvent) :
  finalTexts (event :: events) = finalTexts [event] ++ finalTexts events.
Proof. unfold finalTexts. simpl. rewrite app_nil_r. reflexivity. Qed.

(** *** The file system *)

Lemma readFile_Some (fs : gmap path node) (p : path) (data : list byte) :
  FS.readFile fs p = Some data <-> p <> [] /\ fs !! p = Some (File data).
Proof.
  unfold FS.readFile. destruct p as [|seg p]; simpl.
  - split; [discriminate | intros [? _]; congruence].
  - destruct (fs !! (seg :: p)) as [[d|]|]; split; try discriminate;
      try (intros [_ ?]; congruence); intros [= ->]; split; congruence.
Qed.

Lemma lookup_mkdirs (fs : gmap path node) (l : list path) (x : path) :
  foldr (fun q acc => <[q := Dir]> acc) fs l !! x
  = if decide (x ∈ l) then Some Dir else fs !! x.
Proof.
  induction l as [|q l IH]; cbn [foldr].
  - destruct (decide (x ∈ [])) as [H|_]; [inversion H | reflexivity].
  - destruct (decide (q = x)) as [->|Hne].
    + rewrite lookup_insert_eq. rewrite decide_True by left. reflexivity.
    + rewrite lookup_insert_ne by done. rewrite IH.
      destruct (decide (x ∈ l)) as [Hin|Hout], (decide (x ∈ q :: l)) as [Hin'|Hout'];
        try reflexivity.
      * exfalso. apply Hout'. by right.
      * exfalso. apply elem_of_cons in Hin' as [->|Hin']; [by apply Hne | by apply Hout].
Qed.

Lemma mkdirSyncRecursive_readFile (fs fs' : gmap path node) (q x : path) :
  FS.mkdirSyncRecursive fs q = Ok fs' ->
  FS.readFile fs' x = FS.readFile fs x.
Proof.
  unfold FS.mkdirSyncRecursive.
  destruct (existsb (FS.isFile fs) (FS.ancestors q)) eqn:Hfiles; [discriminate|].
  intros [= <-]. destruct x as [|seg x]; [reflexivity|].
  unfold FS.readFile, FS.stat. rewrite lookup_mkdirs. case_decide as Hin; [|reflexivity].
  assert (FS.isFile fs (seg :: x) = false) as Hnf.
  { destruct (FS.isFile fs (seg :: x)) eqn:E; [|reflexivity].
    assert (existsb (FS.isFile fs) (FS.ancestors q) = true); [|congruence].
    apply existsb_exists. exists (seg :: x). split; [by apply list_elem_of_In | done]. }
  unfold FS.isFile, FS.stat in Hnf.
  destruct (fs !! (seg :: x)) as [[d|]|]; congruence.
Qed.

Lemma writeFileSync_Ok (fs fs' : gmap path node) (p : path) (data : list byte) :
  FS.writeFileSync fs p data = Ok fs' ->
  fs' = <[p := File data]> fs /\ p <> [].
Proof.
  unfold FS.writeFileSync.
  destruct (FS.isDirectory fs p) eqn:Hd; [discriminate|].
  destruct (FS.isDirectory fs (Path.dirname p)); [|discriminate].
  intros [= <-]. split; [reflexivity|]. intros ->. discriminate.
Qed.

Lemma renameSync_Ok (fs fs' : gmap path node) (from to : path) :
  FS.renameSync fs from to = Ok fs' ->
  exists data, FS.readFile fs from = Some data
               /\ fs' = <[to := File data]> (delete from fs) /\ to <> [].
Proof.
  unfold FS.renameSync, FS.readFile.
  destruct (FS.stat fs from) as [[data|]|]; try discriminate.
  destruct (FS.isDirectory fs to) eqn:Hd; [discriminate|].
  destruct (FS.isDirectory fs (Path.dirname to)); [|discriminate].
  intros [= <-]. exists data. repeat split. intros ->. discriminate.
Qed.

Lemma existsSync_insert_ne (fs : gmap path node) (p q : path) (n : node) :
  p <> q -> FS.existsSync (<[p := n]> fs) q = FS.existsSync fs q.
Proof.
  intros Hne. unfold FS.existsSync, FS.stat. destruct q; [reflexivity|].
  rewrite lookup_insert_ne by done. reflexivity.
Qed.

Lemma join_ne_nil (dir : path) (name : string) : Path.join dir name <> [].
Proof. unfold Path.join. destruct dir; discriminate. Qed.

Lemma join_join_ne (dir : path) (a b c : string) :
  Path.join (Path.join dir a) b <> Path.join dir c.
Proof.
  unfold Path.join. intros H. apply (f_equal length) in H.
  rewrite !length_app in H. simpl in H. lia.
Qed.

Lemma dirname_join (dir : path) (name : string) :
  Path.dirname (Path.join dir name) = dir.
Proof. unfold Path.dirname, Path.join. apply removelast_last. Qed.

(** *** Running computations *)

Lemma bind_Ok {A B} (m : M A) (k : A -> M B) (w w' : World) (b : B) :
  bind m k w = (w', Ok b) ->
  exists w1 a, m w = (w1, Ok a) /\ k a w1 = (w', Ok b).
Proof.
  unfold bind. destruct (m w) as [w1 [a|e]]; [eauto | discriminate].
Qed.

Lemma fsUpdate_Ok (op : gmap path node -> result (gmap path node)) (w w' : World) (u : unit) :
  fsUpdate op w = (w', Ok u) ->
  exists fs', op (fsys w) = Ok fs' /\ w' = mkWorld fs' (trace w) (results w).
Proof.
  unfold fsUpdate, bind, getFs, putFs, throw.
  destruct (op (fsys w)) as [fs'|e]; [|discriminate].
  intros [= <-]. eauto.
Qed.

Lemma emit_run (e : event) (w : World) : emit e w = (after w [e], Ok tt).
Proof. reflexivity. Qed.

Lemma after_after (w : World) (es1 es2 : list event) :
  after (after w es1) es2 = after w (es1 ++ es2).
Proof. unfold after. cbn [fsys trace results]. rewrite <- app_assoc. reflexivity. Qed.

Lemma for_of_pure {A S} (l : list A) (body : S -> A -> M S) (s : S) (w : World) :
  (forall s x w, fst (body s x w) = w) ->
  fst (for_of l body s w) = w.
Proof.
  intros Hpure. revert s w. induction l as [|x l IH]; intros s w; [reflexivity|].
  simpl. unfold bind. specialize (Hpure s x w).
  destruct (body s x w) as [w1 [s1|e]]; simpl in Hpure; subst w1; [apply IH | reflexivity].
Qed.



(** *** The trace only grows *)

Lemma grows_refl (w : World) : grows w w.
Proof. exists []. by rewrite app_nil_r. Qed.

Lemma grows_trans (w1 w2 w3 : World) : grows w1 w2 -> grows w2 w3 -> grows w1 w3.
Proof. intros [es1 H1] [es2 H2]. exists (es1 ++ es2). by rewrite H2, H1, app_assoc. Qed.

Lemma monotone_ret {A} (a : A) : monotone (ret a).
Proof. intros w. apply grows_refl. Qed.

Lemma monotone_throw {A} (e : error) : monotone (@throw A e).
Proof. intros w. apply grows_refl. Qed.

Lemma monotone_bind {A B} (m : M A) (k : A -> M B) :
  monotone m -> (forall a, monotone (k a)) -> monotone (bind m k).
Proof.
  intros Hm Hk w. unfold bind. specialize (Hm w).
  destruct (m w) as [w1 [a|e]]; [|exact Hm].
  eapply grows_trans; [exact Hm | apply Hk].
Qed.

Lemma monotone_try_catch {A} (body : M A) (handler : error -> M A) :
  monotone body -> (forall e, monotone (handler e)) -> monotone (try_catch body handler).
Proof.
  intros Hb Hh w. unfold try_catch. specialize (Hb w).
  destruct (body w) as [w1 [a|e]]; [exact Hb|].
  eapply grows_trans; [exact Hb | apply Hh].
Qed.

Lemma monotone_for_of {A S} (l : list A) (body : S -> A -> M S) (s : S) :
  (forall s x, monotone (body s x)) -> monotone (for_of l body s).
Proof.
  intros Hbody. revert s. induction l as [|x l IH]; intros s.
  - apply monotone_ret.
  - apply monotone_bind; [apply Hbody | intros s'; apply IH].
Qed.

Lemma monotone_emit (e : event) : monotone (emit e).
Proof. intros w. exists [e]. reflexivity. Qed.

Lemma monotone_getFs : monotone getFs.
Proof. intros w. apply grows_refl. Qed.

Lemma monotone_putFs (fs : gmap path node) : monotone (putFs fs).
Proof. intros w. exists []. simpl. by rewrite app_nil_r. Qed.

Lemma monotone_liftResult {A} (r : result A) : monotone (liftResult r).
Proof. destruct r; [apply monotone_ret | apply monotone_throw]. Qed.

Lemma monotone_fsUpdate (op : gmap path node -> result (gmap path node)) :
  monotone (fsUpdate op).
Proof.
  apply monotone_bind; [apply monotone_getFs|]. intros fs.
  destruct (op fs); [apply monotone_putFs | apply monotone_throw].
Qed.

Lemma monotone_fsQuery {A} (op : gmap path node -> A) : monotone (fsQuery op).
Proof. apply monotone_bind; [apply monotone_getFs | intros; apply monotone_ret]. Qed.

Lemma monotone_resultStream_write (s : string) : monotone (resultStream_write s).
Proof. intros w. exists []. simpl. by rewrite app_nil_r. Qed.

Lemma monotone_console_log (msg : string) : monotone (console_log msg).
Proof. apply monotone_emit. Qed.

Lemma monotone_console_warn (msg : string) : monotone (console_warn msg).
Proof. apply monotone_emit. Qed.

Lemma monotone_console_error (msg : string) : monotone (console_error msg).
Proof. apply monotone_emit. Qed.

Create HintDb monotone.
#[export] Hint Resolve monotone_ret monotone_throw monotone_emit monotone_getFs
  monotone_putFs monotone_liftResult monotone_fsUpdate monotone_fsQuery
  monotone_resultStream_write monotone_console_log monotone_console_warn
  monotone_console_error : monotone.

(** Goes through a computation along its binds, handlers, loops and case
    distinctions. *)
Ltac solve_monotone :=
  repeat first
    [ progress intros
    | solve [auto with monotone]
    | apply monotone_bind
    | apply monotone_try_catch
    | apply monotone_for_of
    | match goal with
      | |- monotone (if ?b then _ else _) => destruct b
      | |- monotone (match ?x with _ => _ end) => destruct x
      end ].


Section Properties.
Context {env : Environment}.

(** *** The chunked audio source *)

(** C7. Reading a file of any size through the chunked audio source yields
    chunks whose contents, concatenated in order, are exactly the bytes of
    the file; no chunk is empty or longer than 4096 bytes, and every chunk
    before the last has exactly 4096 bytes. *)
Theorem audioStreamGenerator_chunks (w : World) (filePath : path) (data : list byte) :
  FS.readFile (fsys w) filePath = Some data ->
  exists chunks : list AudioEvent,
    audioStreamGenerator filePath w = (w, Ok chunks)
    /\ concat (map AudioChunk chunks) = data
    /\ (forall i c, chunks !! i = Some c -> 0 < length (AudioChunk c) <= 4096)
    /\ (forall i c, chunks !! i = Some c -> S i < length chunks ->
                    length (AudioChunk c) = 4096).
Proof.
  intros Hread.
  exists (map (fun chunk => {| AudioChunk := chunk |}) (createReadStream 4096 data)).
  split; [| split; [| split]].
  - unfold audioStreamGenerator, bind, getFs, ret. simpl. rewrite Hread. reflexivity.
  - rewrite map_map. simpl. rewrite map_id. apply createReadStream_concat. lia.
  - intros i c Hi. rewrite list_lookup_fmap in Hi.
    destruct (createReadStream 4096 data !! i) as [chunk|] eqn:Hc; [|discriminate].
    injection Hi as <-. simpl.
    eapply createReadStream_bounds, list_elem_of_lookup_2, Hc.
  - intros i c Hi Hlt. rewrite list_lookup_fmap in Hi. rewrite length_map in Hlt.
    destruct (createReadStream 4096 data !! i) as [chunk|] eqn:Hc; [|discriminate].
    injection Hi as <-. simpl.
    eapply createReadStream_full; eassumption.
Qed.

(** *** The transcription driver *)

(** The loop of [transcribeAudio] over the results of one event. *)
Lemma accumulate_results (results : list Result) (transcript : string) (w : World) :
  Forall (fun r => IsPartial r = false -> Alternatives r <> []) results ->
  for_of results
    (fun transcript result =>
       if negb (IsPartial result) then
         match Alternatives result with
         | alternative :: _ =>
             ret (transcript +:+ (Transcript alternative +:+ " "))
         | [] =>
             throw (plainError
               "Cannot read properties of undefined (reading 'Transcript')")
         end
       else ret transcript) transcript w
  = (w, Ok (transcript +:+ spaceTerminated (finalTexts [ {| Results := results |} ]))).
Proof.
  intros Hwf. revert transcript. induction Hwf as [|r results Hr _ IH]; intros transcript.
  - simpl. rewrite app_empty_r. reflexivity.
  - cbn [for_of]. unfold bind at 1.
    destruct (IsPartial r) eqn:Hp; cbn [negb].
    + unfold ret at 1. rewrite IH. unfold finalTexts. simpl. rewrite Hp. reflexivity.
    + destruct (Alternatives r) as [|alternative rest] eqn:Ha; [by destruct Hr|].
      unfold ret at 1. rewrite IH. unfold finalTexts. simpl. rewrite Hp, Ha.
      simpl. rewrite !app_nil_r. rewrite <- !app_assoc_string. reflexivity.
Qed.

(** The loop of [transcribeAudio] over the events of the stream. *)
Lemma accumulate_events (events : list TranscriptEvent) (transcript : string) (w : World) :
  wellFormed events ->
  for_of events
    (fun transcript event =>
       let results := Results event in
       for_of results
         (fun transcript result =>
            if negb (IsPartial result) then
              match Alternatives result with
              | alternative :: _ =>
                  ret (transcript +:+ (Transcript alternative +:+ " "))
              | [] =>
                  throw (plainError
                    "Cannot read properties of undefined (reading 'Transcript')")
              end
            else ret transcript) transcript) transcript w
  = (w, Ok (transcript +:+ spaceTerminated (finalTexts events))).
Proof.
  intros Hwf. revert transcript. induction Hwf as [|[results] events Hev _ IH]; intros transcript.
  - simpl. rewrite app_empty_r. reflexivity.
  - cbn [for_of]. unfold bind at 1. cbn zeta. cbn [Results] in *.
    rewrite (accumulate_results _ _ _ Hev). rewrite IH.
    rewrite (finalTexts_cons _ events), spaceTerminated_app, app_assoc_string.
    reflexivity.
Qed.

Lemma transcribeAudio_completed (w : World) (filePath : path) (data : list byte)
      (events : list TranscriptEvent) :
  FS.readFile (fsys w) filePath = Some data ->
  answer data = Ok (events, EndOfStream) ->
  wellFormed events ->
  transcribeAudio filePath w
  = (w, Ok (Some (JS.trim (spaceTerminated (finalTexts events))))).
Proof.
  intros Hread Hans Hwf.
  unfold transcribeAudio, try_catch, client_send, audioStreamGenerator, for_await.
  cbn [AudioStream LanguageCode MediaEncoding MediaSampleRateHertz].
  unfold bind at 1. unfold bind at 1. unfold bind at 1. unfold getFs at 1.
  rewrite Hread. unfold ret at 1. fold (answer data). rewrite Hans.
  cbn [liftResult]. unfold ret at 1. cbn [fst snd].
  unfold bind at 1. unfold bind at 1.
  rewrite (accumulate_events _ _ _ Hwf). reflexivity.
Qed.

Lemma transcribeAudio_total (w : World) (filePath : path) :
  exists w' r, transcribeAudio filePath w = (w', Ok r) /\ fsys w' = fsys w
               /\ results w' = results w.
Proof.
  unfold transcribeAudio, try_catch.
  match goal with |- context [match ?body w with _ => _ end] =>
    assert (Hfs : fst (body w) = w); [| destruct (body w) as [w1 [r|e]] ] end.
  - unfold client_send, audioStreamGenerator, for_await.
    cbn [AudioStream LanguageCode MediaEncoding MediaSampleRateHertz].
    unfold bind at 1. unfold bind at 1. unfold bind at 1. unfold getFs at 1.
    destruct (FS.readFile (fsys w) filePath) as [data|]; [|reflexivity].
    unfold ret at 1. fold (answer data).
    destruct (answer data) as [[events fin]|e]; [|reflexivity].
    cbn [liftResult]. unfold ret at 1. cbn [fst snd]. unfold bind at 1. unfold bind at 1.
    match goal with |- context [for_of events ?body ?s w] =>
      assert (Hp : fst (for_of events body s w) = w);
        [| destruct (for_of events body s w) as [w1 [t|e]]; simpl in Hp; subst w1 ] end.
    + apply for_of_pure. intros s x w0. apply for_of_pure.
      intros s0 [[] alts] w1; simpl; [reflexivity|]. destruct alts; reflexivity.
    + destruct fin; reflexivity.
    + reflexivity.
  - simpl in Hfs. subst w1. eauto.
  - simpl in Hfs. subst w1. eexists _, _. split; [reflexivity|]. split; reflexivity.
Qed.

(** C5, amended.  When the stream is consumed without error the driver
    returns the first alternatives of the final results, in stream order,
    each followed by one space, with white space removed at both ends; the
    events partial a, final hello, partial b, final world give
    [hello world]. *)
Theorem transcribeAudio_transcript
        (w : World) (filePath : path) (data : list byte) (events : list TranscriptEvent) :
  FS.readFile (fsys w) filePath = Some data ->
  answer data = Ok (events, EndOfStream) ->
  wellFormed events ->
  transcribeAudio filePath w
  = (w, Ok (Some (JS.trim (spaceTerminated (finalTexts events)))))
  /\ (events = [partial "a"; final "hello"; partial "b"; final "world"] ->
      transcribeAudio filePath w = (w, Ok (Some "hello world"))).
Proof.
  intros Hread Hans Hwf.
  rewrite (transcribeAudio_completed _ _ _ _ Hread Hans Hwf).
  split; [reflexivity|]. intros ->. reflexivity.
Qed.

(** C6. When the event stream ends with an error, whatever events came
    before it, the driver logs the error and returns [null]; it never
    returns a transcript, empty or not. *)
Theorem transcribeAudio_stream_error
        (w : World) (filePath : path) (data : list byte)
        (events : list TranscriptEvent) (e : error) :
  FS.readFile (fsys w) filePath = Some data ->
  answer data = Ok (events, StreamError e) ->
  exists e',
    transcribeAudio filePath w
    = (after w [Console ERROR ("Error during transcription: " +:+ message e')],
       Ok None).
Proof.
  intros Hread Hans.
  unfold transcribeAudio, try_catch, client_send, audioStreamGenerator, for_await.
  cbn [AudioStream LanguageCode MediaEncoding MediaSampleRateHertz].
  unfold bind at 1. unfold bind at 1. unfold bind at 1. unfold getFs at 1.
  rewrite Hread. unfold ret at 1. fold (answer data). rewrite Hans.
  cbn [liftResult]. unfold ret at 1. cbn [fst snd].
  unfold bind at 1. unfold bind at 1.
  match goal with |- context [for_of events ?body ?s w] =>
    assert (Hp : fst (for_of events body s w) = w);
      [| destruct (for_of events body s w) as [w1 [t|e1]]; simpl in Hp; subst w1 ] end.
  - apply for_of_pure. intros s x w0. apply for_of_pure.
    intros s0 [[] alts] w1; simpl; [reflexivity|]. destruct alts; reflexivity.
  - exists e. reflexivity.
  - exists e1. reflexivity.
Qed.

(** *** Checking and converting a file *)

(** The probe command, whatever the trace holds. *)
Lemma execFfmpegCheck_run (w : World) (inputPath : path) :
  execFfmpegCheck inputPath w =
  (after w [Exec (FfmpegCheck inputPath)],
   match FS.readFile (fsys w) inputPath with
   | Some data => ffmpeg_probe inputPath data
   | None =>
       Throw (plainError ("Command failed: " +:+ FFMPEG_PATH +:+ " -i "
                          +:+ Path.show inputPath))
   end).
Proof.
  unfold execFfmpegCheck, bind, getFs. rewrite emit_run. cbn [after fsys].
  destruct (FS.readFile (fsys w) inputPath) as [data|]; [|reflexivity].
  destruct (ffmpeg_probe inputPath data); reflexivity.
Qed.

Lemma inspect_run (w : World) (inputPath : path) :
  inspect inputPath w =
  if String.eqb (containerExt inputPath) "wav" then
    (after w [Exec (FfmpegCheck inputPath)],
     match FS.readFile (fsys w) inputPath with
     | Some data =>
         match ffmpeg_probe inputPath data with
         | Ok ffmpegOutput => Ok (reportsTarget ffmpegOutput)
         | Throw e => Throw e
         end
     | None =>
         Throw (plainError ("Command failed: " +:+ FFMPEG_PATH +:+ " -i "
                            +:+ Path.show inputPath))
     end)
  else (w, Ok false).
Proof.
  unfold inspect. fold (containerExt inputPath).
  destruct (String.eqb (containerExt inputPath) "wav"); [|reflexivity].
  unfold bind. rewrite execFfmpegCheck_run.
  destruct (FS.readFile (fsys w) inputPath) as [data|]; [|reflexivity].
  destruct (ffmpeg_probe inputPath data); reflexivity.
Qed.

Lemma inspect_fsys (w w' : World) (inputPath : path) (r : result bool) :
  inspect inputPath w = (w', r) -> fsys w' = fsys w /\ results w' = results w.
Proof.
  unfold inspect. destruct (String.eqb _ "wav").
  - unfold execFfmpegCheck, bind, getFs, liftResult, ret, throw. rewrite emit_run.
    cbn [after fsys].
    destruct (FS.readFile (fsys w) inputPath) as [data|].
    + destruct (ffmpeg_probe inputPath data); intros [= <- _]; done.
    + intros [= <- _]; done.
  - intros [= <- _]. done.
Qed.

Lemma execFfmpegConvert_Ok (w w' : World) (inputPath convertedPath : path) (u : unit) :
  execFfmpegConvert inputPath convertedPath w = (w', Ok u) ->
  exists data converted,
    FS.readFile (fsys w) inputPath = Some data
    /\ ffmpeg_convert inputPath convertedPath data = Ok converted
    /\ fsys w' = <[convertedPath := File converted]> (fsys w).
Proof.
  unfold execFfmpegConvert. intros (w1 & [] & Hemit & Hrun)%bind_Ok.
  rewrite emit_run in Hemit. injection Hemit as <-.
  apply bind_Ok in Hrun as (w2 & fs & Hget & Hrun). injection Hget as <- <-.
  cbn [after fsys] in Hrun.
  destruct (FS.readFile (fsys w) inputPath) as [data|]; [|discriminate].
  apply bind_Ok in Hrun as (w3 & converted & Hconv & Hwrite).
  destruct (ffmpeg_convert inputPath convertedPath data) as [c|e] eqn:Hc; [|discriminate].
  injection Hconv as <- <-.
  apply fsUpdate_Ok in Hwrite as (fs' & [-> _]%writeFileSync_Ok & ->).
  exists data, c. done.
Qed.

Lemma normalize_Ok (w w' : World) (inputPath : path) (r : option path) :
  normalize inputPath w = (w', Ok r) ->
  let dir := Path.dirname inputPath in
  let baseName := Path.basenameExt inputPath (Path.extname inputPath) in
  let convertedPath := Path.join dir (baseName +:+ ".wav") in
  let movedPath := Path.join (Path.join dir "older") (Path.basename inputPath) in
  exists original converted,
    FS.readFile (fsys w) inputPath = Some original
    /\ ffmpeg_convert inputPath convertedPath original = Ok converted
    /\ r = Some convertedPath
    /\ FS.readFile (fsys w') movedPath = Some original
    /\ FS.readFile (fsys w') convertedPath = Some converted
    /\ inputPath <> convertedPath.
Proof.
  intros Hrun dir baseName convertedPath movedPath. revert Hrun.
  unfold normalize. fold dir baseName convertedPath.
  set (olderDir := Path.join dir "older"). fold movedPath.
  intros (w0 & exists_ & Hq & Hrun)%bind_Ok.
  injection Hq as <- <-.
  apply bind_Ok in Hrun as (w1 & [] & Hmk & Hrun).
  assert (Hfiles : forall x, FS.readFile (fsys w1) x = FS.readFile (fsys w) x).
  { destruct (FS.existsSync (fsys w) olderDir); cbn [negb] in Hmk.
    - injection Hmk as <-. done.
    - apply fsUpdate_Ok in Hmk as (fs1 & Hmk & ->). intros x.
      eapply mkdirSyncRecursive_readFile, Hmk. }
  clear Hmk.
  apply bind_Ok in Hrun as (w2 & [] & Hlog & Hrun). injection Hlog as <-.
  apply bind_Ok in Hrun as (w3 & [] & Hconv & Hrun).
  apply execFfmpegConvert_Ok in Hconv as (original & converted & Hread & Hconv & Hfs3).
  cbn [after fsys] in Hread, Hfs3. rewrite Hfiles in Hread.
  apply bind_Ok in Hrun as (w4 & [] & Hmv & Hrun).
  apply fsUpdate_Ok in Hmv as (fs4 & (d1 & Hd1 & -> & _)%renameSync_Ok & ->).
  apply bind_Ok in Hrun as (w5 & [] & Hlog & Hrun). injection Hlog as <-.
  apply bind_Ok in Hrun as (w6 & [] & Hmv & Hrun).
  apply fsUpdate_Ok in Hmv as (fs6 & (d2 & Hd2 & -> & _)%renameSync_Ok & ->).
  apply bind_Ok in Hrun as (w7 & [] & Hlog & Hrun). injection Hlog as <-.
  injection Hrun as <- <-.
  cbn [after fsys] in *.
  assert (Hmc : movedPath <> convertedPath) by apply join_join_ne.
  apply readFile_Some in Hd2 as [_ Hd2].
  rewrite lookup_insert_ne in Hd2 by done.
  apply lookup_delete_Some in Hd2 as [Hne Hd2].
  rewrite Hfs3, lookup_insert_eq in Hd2. injection Hd2 as <-.
  apply readFile_Some in Hd1 as [Hnil Hd1].
  rewrite Hfs3, lookup_insert_ne in Hd1 by done.
  assert (d1 = original) as ->.
  { specialize (Hfiles inputPath). rewrite Hread in Hfiles.
    apply readFile_Some in Hfiles as [_ Hfiles]. congruence. }
  exists original, converted. repeat split; try done.
  - apply readFile_Some. split; [apply join_ne_nil|].
    rewrite lookup_insert_ne by done. rewrite lookup_delete_ne by done.
    apply lookup_insert_eq.
  - apply readFile_Some. split; [apply join_ne_nil|]. apply lookup_insert_eq.
Qed.

(** When the converted path is the input path, which is the case of an
    input named [x.wav], the conversion never completes: either the tool
    fails, or it overwrites the input and the second rename finds nothing to
    rename. *)
Lemma normalize_in_place (w : World) (inputPath : path) :
  Path.join (Path.dirname inputPath)
    (Path.basenameExt inputPath (Path.extname inputPath) +:+ ".wav") = inputPath ->
  exists w' e, normalize inputPath w = (w', Throw e).
Proof.
  intros Hsame. destruct (normalize inputPath w) as [w' [r|e]] eqn:Hrun; [|eauto].
  apply normalize_Ok in Hrun as (_ & _ & _ & _ & _ & _ & _ & Hne).
  exfalso. apply Hne. symmetry. exact Hsame.
Qed.

Lemma normalize_conversion_failure (w : World) (inputPath : path)
      (original : list byte) (e : error) :
  let dir := Path.dirname inputPath in
  let baseName := Path.basenameExt inputPath (Path.extname inputPath) in
  FS.readFile (fsys w) inputPath = Some original ->
  ffmpeg_convert inputPath (Path.join dir (baseName +:+ ".wav")) original = Throw e ->
  exists w' e',
    normalize inputPath w = (w', Throw e')
    /\ results w' = results w
    /\ forall x, FS.readFile (fsys w') x = FS.readFile (fsys w) x.
Proof.
  intros dir baseName Hread Hfail.
  unfold normalize, console_log. fold dir baseName.
  set (olderDir := Path.join dir "older").
  unfold bind at 1. unfold fsQuery, bind at 1, getFs at 1, ret at 1.
  unfold bind at 1.
  destruct (FS.existsSync (fsys w) olderDir); cbn [negb].
  - unfold ret at 1. unfold bind at 1. rewrite emit_run.
    unfold bind at 1. unfold execFfmpegConvert, bind at 1. rewrite emit_run.
    unfold bind at 1, getFs at 1. cbn [after fsys]. rewrite Hread.
    unfold bind at 1. rewrite Hfail. cbn [liftResult]. unfold throw.
    eexists _, _. split; [reflexivity|]. split; [reflexivity|]. done.
  - unfold fsUpdate, bind at 1, getFs at 1.
    destruct (FS.mkdirSyncRecursive (fsys w) olderDir) as [fs1|e1] eqn:Hmk.
    + unfold putFs at 1. unfold bind at 1. rewrite emit_run.
      unfold bind at 1. unfold execFfmpegConvert, bind at 1. rewrite emit_run.
      unfold bind at 1, getFs at 1. cbn [after fsys].
      rewrite (mkdirSyncRecursive_readFile _ _ _ _ Hmk), Hread.
      unfold bind at 1. rewrite Hfail. cbn [liftResult]. unfold throw.
      eexists _, _. split; [reflexivity|]. split; [reflexivity|].
      intros x. cbn [fsys]. eapply mkdirSyncRecursive_readFile, Hmk.
    + unfold throw. eexists _, _. split; [reflexivity|]. split; [reflexivity|]. done.
Qed.

(** [ensureAudioCompatibility] as a case analysis on what the check and
    the conversion do. *)
Lemma ensureAudioCompatibility_run (w : World) (inputPath : path) :
  ensureAudioCompatibility inputPath w =
  match inspect inputPath
          (after w [Console LOG ("Checking audio file format: " +:+ Path.show inputPath)])
  with
  | (w1, Ok true) =>
      (after w1 [Console LOG ("Audio file is already compatible: "
                              +:+ Path.show inputPath)],
       Ok (Some inputPath))
  | (w1, Ok false) =>
      match normalize inputPath w1 with
      | (w2, Ok r) => (w2, Ok r)
      | (w2, Throw e) =>
          (after w2 [Console ERROR ("Error processing audio file: "
                                    +:+ Path.show inputPath +:+ " " +:+ message e)],
           Ok None)
      end
  | (w1, Throw e) =>
      (after w1 [Console ERROR ("Error processing audio file: "
                                +:+ Path.show inputPath +:+ " " +:+ message e)],
       Ok None)
  end.
Proof.
  unfold ensureAudioCompatibility, try_catch, console_log, console_error.
  unfold bind at 1. rewrite emit_run. unfold bind at 1.
  destruct (inspect inputPath _) as [w1 [[]|e]].
  - reflexivity.
  - destruct (normalize inputPath w1) as [w2 [r|e]]; reflexivity.
  - reflexivity.
Qed.




(** C2. When the conversion command fails, the conversion is abandoned with
    an error, [ensureAudioCompatibility] returns [null], and every file holds
    what it held before: in particular the input is still at its path with
    its bytes, nothing was moved or renamed. *)
Theorem ensureAudioCompatibility_conversion_failure
        (w w1 : World) (inputPath : path) (original : list byte) (e : error) :
  let dir := Path.dirname inputPath in
  let baseName := Path.basenameExt inputPath (Path.extname inputPath) in
  inspect inputPath
    (after w [Console LOG ("Checking audio file format: " +:+ Path.show inputPath)])
  = (w1, Ok false) ->
  FS.readFile (fsys w) inputPath = Some original ->
  ffmpeg_convert inputPath (Path.join dir (baseName +:+ ".wav")) original = Throw e ->
  exists w2 e',
    normalize inputPath w1 = (w2, Throw e')
    /\ ensureAudioCompatibility inputPath w
       = (after w2 [Console ERROR ("Error processing audio file: "
                                   +:+ Path.show inputPath +:+ " " +:+ message e')],
          Ok None)
    /\ (forall x, FS.readFile (fsys w2) x = FS.readFile (fsys w) x)
    /\ FS.readFile (fsys w2) inputPath = Some original.
Proof.
  intros dir baseName Hinspect Hread Hfail.
  apply inspect_fsys in Hinspect as Hfs. destruct Hfs as [Hfs _].
  cbn [after fsys] in Hfs.
  destruct (normalize_conversion_failure w1 inputPath original e)
    as (w2 & e' & Hnorm & _ & Hfiles); [by rewrite Hfs | exact Hfail |].
  exists w2, e'. split; [exact Hnorm|]. split; [|split].
  - rewrite ensureAudioCompatibility_run, Hinspect, Hnorm. reflexivity.
  - intros x. rewrite Hfiles, Hfs. reflexivity.
  - rewrite Hfiles, Hfs. exact Hread.
Qed.

(** *** One file of the batch *)

(** [processFile] as a case analysis on what its steps do. *)
Lemma processFile_run (audioDir referenceDir : path) (file : string) (w : World) :
  let baseName := Path.parseName file in
  let referencePath := Path.join referenceDir (baseName +:+ ".txt") in
  let outputPath := Path.join (Path.join cwd OUTPUT_DIR) (baseName +:+ ".txt") in
  processFile audioDir referenceDir file w =
  match ensureAudioCompatibility (Path.join audioDir file)
          (after w [Console LOG ("Processing: " +:+ file)])
  with
  | (w1, Throw e) => (w1, Throw e)
  | (w1, Ok None) =>
      (after w1 [Console ERROR ("Skipping file due to conversion error: " +:+ file)],
       Ok tt)
  | (w1, Ok (Some audioPath)) =>
      match transcribeAudio audioPath w1 with
      | (w2, Throw e) =>
          (after w2 [Console ERROR ("Error processing " +:+ file +:+ ":" +:+ " "
                                    +:+ message e)], Ok tt)
      | (w2, Ok transcript) =>
          if JS.truthy_opt transcript then
            try_catch
              (fsUpdate (fun fs =>
                 FS.writeFileSync fs outputPath (JS.utf8 (default "" transcript))) ;;
               console_log ("Transcription completed: "
                            +:+ (OUTPUT_DIR +:+ "/" +:+ baseName +:+ ".txt")) ;;
               referenceExists <- fsQuery (fun fs => FS.existsSync fs referencePath) ;;
               if negb referenceExists then
                 console_warn ("Warning: Reference file not found: "
                               +:+ Path.show referencePath)
               else
                 evaluationOutput <- calculateMetrics referencePath outputPath ;;
                 if JS.truthy_opt evaluationOutput then
                   let resultString :=
                     "File: " +:+ baseName +:+ newline
                     +:+ default "" evaluationOutput +:+ newline in
                   resultStream_write resultString ;;
                   console_log ("Results for " +:+ file +:+ ":" +:+ newline
                                +:+ resultString)
                 else
                   console_error ("Failed to calculate metrics for " +:+ file))
              (fun error =>
                 console_error ("Error processing " +:+ file +:+ ":" +:+ " "
                                +:+ message error)) w2
          else
            (after w2 [Console ERROR ("Failed to transcribe " +:+ file)], Ok tt)
      end
  end.
Proof.
  intros baseName referencePath outputPath.
  unfold processFile. fold baseName referencePath outputPath.
  unfold bind at 1. unfold console_log at 1. rewrite emit_run.
  unfold bind at 1.
  destruct (ensureAudioCompatibility _ _) as [w1 [[audioPath|]|e]]; [| reflexivity..].
  unfold try_catch at 1. unfold bind at 1.
  destruct (transcribeAudio audioPath w1) as [w2 [transcript|e]]; [|reflexivity].
  destruct (JS.truthy_opt transcript); reflexivity.
Qed.


(** C3, amended.  When the probe command fails for a file with the target
    extension, [ensureAudioCompatibility] logs the error and returns [null]
    without running the conversion or touching the file system, and the
    orchestrator skips the file. *)
Theorem ensureAudioCompatibility_probe_failure
        (w : World) (inputPath : path) (e : error) :
  containerExt inputPath = "wav" ->
  snd (execFfmpegCheck inputPath w) = Throw e ->
  ensureAudioCompatibility inputPath w
  = (after w [Console LOG ("Checking audio file format: " +:+ Path.show inputPath);
              Exec (FfmpegCheck inputPath);
              Console ERROR ("Error processing audio file: "
                             +:+ Path.show inputPath +:+ " " +:+ message e)],
     Ok None)
  /\ forall audioDir referenceDir file,
      inputPath = Path.join audioDir file ->
      processFile audioDir referenceDir file w
      = (after w [Console LOG ("Processing: " +:+ file);
                  Console LOG ("Checking audio file format: " +:+ Path.show inputPath);
                  Exec (FfmpegCheck inputPath);
                  Console ERROR ("Error processing audio file: "
                                 +:+ Path.show inputPath +:+ " " +:+ message e);
                  Console ERROR ("Skipping file due to conversion error: " +:+ file)],
         Ok tt).
Proof.
  intros Hext Hprobe.
  assert (Hrun : forall w0, fsys w0 = fsys w ->
            ensureAudioCompatibility inputPath w0
            = (after w0 [Console LOG ("Checking audio file format: "
                                      +:+ Path.show inputPath);
                         Exec (FfmpegCheck inputPath);
                         Console ERROR ("Error processing audio file: "
                                        +:+ Path.show inputPath +:+ " "
                                        +:+ message e)],
               Ok None)).
  { intros w0 Hfs. rewrite ensureAudioCompatibility_run, inspect_run, Hext.
    cbn [String.eqb Ascii.eqb Bool.eqb]. cbn [after fsys]. rewrite Hfs.
    rewrite execFfmpegCheck_run in Hprobe. cbn [snd] in Hprobe.
    destruct (FS.readFile (fsys w) inputPath) as [data|].
    - rewrite Hprobe. rewrite !after_after. reflexivity.
    - injection Hprobe as <-. rewrite !after_after. reflexivity. }
  split; [apply Hrun; reflexivity|].
  intros audioDir referenceDir file ->.
  rewrite processFile_run, Hrun by reflexivity. rewrite !after_after. reflexivity.
Qed.


(** C10. When the stream ends without error and every final result has an
    empty first alternative (in particular when there is no final result),
    the driver returns the empty string, and the orchestrator writes no
    transcript file, skips the metrics and logs only the line it logs for a
    failed transcription. *)
Theorem processFile_empty_transcript
        (audioDir referenceDir : path) (file : string)
        (w w1 : World) (audioPath : path) (data : list byte)
        (events : list TranscriptEvent) :
  ensureAudioCompatibility (Path.join audioDir file)
    (after w [Console LOG ("Processing: " +:+ file)]) = (w1, Ok (Some audioPath)) ->
  FS.readFile (fsys w1) audioPath = Some data ->
  answer data = Ok (events, EndOfStream) ->
  wellFormed events ->
  Forall (fun text => text = "") (finalTexts events) ->
  transcribeAudio audioPath w1 = (w1, Ok (Some ""))
  /\ processFile audioDir referenceDir file w
     = (after w1 [Console ERROR ("Failed to transcribe " +:+ file)], Ok tt).
Proof.
  intros Hensure Hread Hans Hwf Hempty.
  assert (Htrans : transcribeAudio audioPath w1 = (w1, Ok (Some ""))).
  { rewrite (transcribeAudio_completed _ _ _ _ Hread Hans Hwf).
    rewrite trim_spaces by done. reflexivity. }
  split; [exact Htrans|].
  rewrite processFile_run, Hensure, Htrans. reflexivity.
Qed.

Lemma processFile_transcription_failed
      (audioDir referenceDir : path) (file : string)
      (w w1 w2 : World) (audioPath : path) :
  ensureAudioCompatibility (Path.join audioDir file)
    (after w [Console LOG ("Processing: " +:+ file)]) = (w1, Ok (Some audioPath)) ->
  transcribeAudio audioPath w1 = (w2, Ok None) ->
  processFile audioDir referenceDir file w
  = (after w2 [Console ERROR ("Failed to transcribe " +:+ file)], Ok tt).
Proof.
  intros Hensure Htrans. rewrite processFile_run, Hensure, Htrans. reflexivity.
Qed.

(** *** The batch and the command line *)


Lemma processFiles_not_a_directory (audioDir referenceDir : path) (w : World) :
  FS.isDirectory (fsys w) audioDir = false ->
  processFiles audioDir referenceDir w =
  (w, Throw (plainError ("ENOTDIR: not a directory, scandir '"
                         +:+ Path.show audioDir +:+ "'"))).
Proof.
  intros Hdir. unfold processFiles, bind, getFs, FS.readdirSync.
  rewrite Hdir. reflexivity.
Qed.

Lemma monotone_ensureAudioCompatibility (inputPath : path) :
  monotone (ensureAudioCompatibility inputPath).
Proof.
  unfold ensureAudioCompatibility, inspect, normalize, execFfmpegCheck,
    execFfmpegConvert.
  solve_monotone.
Qed.

Lemma monotone_transcribeAudio (filePath : path) : monotone (transcribeAudio filePath).
Proof.
  unfold transcribeAudio, client_send, for_await, audioStreamGenerator.
  cbn [AudioStream]. solve_monotone.
Qed.

Lemma monotone_calculateMetrics (referencePath hypothesisPath : path) :
  monotone (calculateMetrics referencePath hypothesisPath).
Proof.
  unfold calculateMetrics, execAsrEval. solve_monotone.
Qed.

#[local] Hint Resolve monotone_ensureAudioCompatibility monotone_transcribeAudio
  monotone_calculateMetrics : monotone.






End Properties.

(** *** The theorems at the sample environment *)


Lemma ensureAudioCompatibility_conversion_failure_witness :
  exists w2 e',
    @ensureAudioCompatibility (Sample.envWith false true (Ok ([], EndOfStream)))
      ["data"; "audio"; "a.mp3"] Sample.w0
    = (after w2 [Console ERROR ("Error processing audio file: /data/audio/a.mp3 "
                                +:+ message e')], Ok None)
    /\ FS.readFile (fsys w2) ["data"; "audio"; "a.mp3"] = Some (Sample.bytes "mp3 audio").
Proof.
  destruct (@ensureAudioCompatibility_conversion_failure
              (Sample.envWith false true (Ok ([], EndOfStream)))
              Sample.w0
              (after Sample.w0 [Console LOG "Checking audio file format: /data/audio/a.mp3"])
              ["data"; "audio"; "a.mp3"] (Sample.bytes "mp3 audio")
              (plainError "Command failed: ffmpeg -y -i"))
    as (w2 & e' & _ & Hrun & _ & Hkept).
  - reflexivity.
  - reflexivity.
  - reflexivity.
  - exists w2, e'. split; [exact Hrun | exact Hkept].
Defined.

Lemma ensureAudioCompatibility_probe_failure_witness :
  @ensureAudioCompatibility (Sample.envWith true false (Ok ([], EndOfStream)))
    ["data"; "audio"; "b.wav"] Sample.w0
  = (after Sample.w0
       [Console LOG "Checking audio file format: /data/audio/b.wav";
        Exec (FfmpegCheck ["data"; "audio"; "b.wav"]);
        Console ERROR
          "Error processing audio file: /data/audio/b.wav Command failed: ffmpeg -i"],
     Ok None).
Proof.
  destruct (@ensureAudioCompatibility_probe_failure
              (Sample.envWith true false (Ok ([], EndOfStream)))
              Sample.w0 ["data"; "audio"; "b.wav"]
              (plainError "Command failed: ffmpeg -i"))
    as [Hrun _].
  - reflexivity.
  - reflexivity.
  - exact Hrun.
Defined.

(** A target-container file whose probe fails is skipped: no conversion
    command is run for it. *)
Lemma probe_failure_skips_the_file :
  containerExt ["data"; "audio"; "b.wav"] = "wav"
  /\ snd (@execFfmpegCheck (Sample.envWith true false (Ok ([], EndOfStream)))
            ["data"; "audio"; "b.wav"] Sample.w0)
     = Throw (plainError "Command failed: ffmpeg -i")
  /\ @processFile (Sample.envWith true false (Ok ([], EndOfStream)))
       ["data"; "audio"] ["data"; "ref"] "b.wav" Sample.w0
     = (after Sample.w0
          [Console LOG "Processing: b.wav";
           Console LOG "Checking audio file format: /data/audio/b.wav";
           Exec (FfmpegCheck ["data"; "audio"; "b.wav"]);
           Console ERROR
             "Error processing audio file: /data/audio/b.wav Command failed: ffmpeg -i";
           Console ERROR "Skipping file due to conversion error: b.wav"],
        Ok tt).
Proof. repeat split; vm_compute; reflexivity. Qed.


Lemma transcribeAudio_transcript_witness :
  @transcribeAudio Sample.env ["data"; "audio"; "b.wav"] Sample.w0
  = (Sample.w0, Ok (Some "hello world")).
Proof.
  apply (@transcribeAudio_transcript Sample.env Sample.w0 ["data"; "audio"; "b.wav"]
           (Sample.bytes "RIFF audio") Sample.helloWorld).
  - reflexivity.
  - reflexivity.
  - repeat constructor; discriminate.
  - reflexivity.
Defined.

(** White space at the start of the first final text is removed as well:
    the transcript is not the space-terminated texts with only their end
    trimmed. *)
Lemma transcribeAudio_trims_both_ends :
  @transcribeAudio (Sample.envWith false false (Ok ([final " hi"], EndOfStream)))
    ["data"; "audio"; "b.wav"] Sample.w0
  = (Sample.w0, Ok (Some "hi"))
  /\ JS.trimEnd (spaceTerminated (finalTexts [final " hi"])) = " hi".
Proof. split; vm_compute; reflexivity. Qed.

Lemma transcribeAudio_stream_error_witness :
  exists e',
    @transcribeAudio
      (Sample.envWith false false
         (Ok ([partial "a"], StreamError (plainError "connection reset"))))
      ["data"; "audio"; "b.wav"] Sample.w0
    = (after Sample.w0 [Console ERROR ("Error during transcription: " +:+ message e')],
       Ok None).
Proof.
  apply (@transcribeAudio_stream_error
           (Sample.envWith false false
              (Ok ([partial "a"], StreamError (plainError "connection reset"))))
           Sample.w0 ["data"; "audio"; "b.wav"] (Sample.bytes "RIFF audio")
           [partial "a"] (plainError "connection reset")).
  - reflexivity.
  - reflexivity.
Defined.

Lemma audioStreamGenerator_chunks_witness :
  exists chunks : list AudioEvent,
    audioStreamGenerator ["data"; "audio"; "a.mp3"] Sample.w0 = (Sample.w0, Ok chunks)
    /\ concat (map AudioChunk chunks) = Sample.bytes "mp3 audio".
Proof.
  destruct (audioStreamGenerator_chunks Sample.w0
              ["data"; "audio"; "a.mp3"] (Sample.bytes "mp3 audio"))
    as (chunks & Hrun & Hcat & _).
  - reflexivity.
  - exists chunks. split; assumption.
Defined.





Lemma processFile_empty_transcript_witness :
  @processFile (Sample.envWith false false (Ok ([final ""; partial "x"], EndOfStream)))
    ["data"; "audio"] ["data"; "ref"] "b.wav" Sample.w0
  = (after Sample.w0
       [Console LOG "Processing: b.wav";
        Console LOG "Checking audio file format: /data/audio/b.wav";
        Exec (FfmpegCheck ["data"; "audio"; "b.wav"]);
        Console LOG "Audio file is already compatible: /data/audio/b.wav";
        Console ERROR "Failed to transcribe b.wav"],
     Ok tt).
Proof.
  destruct (@processFile_empty_transcript
              (Sample.envWith false false (Ok ([final ""; partial "x"], EndOfStream)))
              ["data"; "audio"] ["data"; "ref"] "b.wav" Sample.w0
              (after Sample.w0
                 [Console LOG "Processing: b.wav";
                  Console LOG "Checking audio file format: /data/audio/b.wav";
                  Exec (FfmpegCheck ["data"; "audio"; "b.wav"]);
                  Console LOG "Audio file is already compatible: /data/audio/b.wav"])
              ["data"; "audio"; "b.wav"] (Sample.bytes "RIFF audio")
              [final ""; partial "x"])
    as [_ Hrun].
  - vm_compute. reflexivity.
  - reflexivity.
  - reflexivity.
  - repeat constructor; discriminate.
  - repeat constructor.
  - rewrite Hrun. vm_compute. reflexivity.
Defined.

(** An incompatible file named [c.wav] is not converted: the converted path
    is the input path, the tool refuses to work in place, and the file is
    left where it is and skipped. *)
Example incompatible_wav_is_skipped :
  snd (@ensureAudioCompatibility Sample.env ["data"; "audio"; "c.wav"] Sample.w0)
  = Ok None
  /\ trace (fst (@ensureAudioCompatibility Sample.env ["data"; "audio"; "c.wav"]
                   Sample.w0))
     = [Console LOG "Checking audio file format: /data/audio/c.wav";
        Exec (FfmpegCheck ["data"; "audio"; "c.wav"]);
        Console LOG "Converting incompatible or non-WAV audio file: /data/audio/c.wav";
        Exec (FfmpegConvert ["data"; "audio"; "c.wav"] ["data"; "audio"; "c.wav"]);
        Console ERROR
          "Error processing audio file: /data/audio/c.wav Command failed: ffmpeg -y -i"]
  /\ FS.readFile
       (fsys (fst (@ensureAudioCompatibility Sample.env ["data"; "audio"; "c.wav"]
                     Sample.w0)))
       ["data"; "audio"; "c.wav"]
     = Some (Sample.bytes "RF64 audio").
Proof. repeat split; vm_compute; reflexivity. Qed.

(** ** Further properties *)

(** *** Relations every step respects *)

Section Respects.
Context (R : World -> World -> Prop) `{!PreOrder R}.

Lemma respects_ret {A} (a : A) : respects R (ret a).
Proof using Type*. intros w. reflexivity. Qed.

Lemma respects_throw {A} (e : error) : respects R (@throw A e).
Proof using Type*. intros w. reflexivity. Qed.

Lemma respects_getFs : respects R getFs.
Proof using Type*. intros w. reflexivity. Qed.

Lemma respects_liftResult {A} (r : result A) : respects R (liftResult r).
Proof using Type*. destruct r; [apply respects_ret | apply respects_throw]. Qed.

Lemma respects_bind {A B} (m : M A) (k : A -> M B) :
  respects R m -> (forall a, respects R (k a)) -> respects R (bind m k).
Proof using Type*.
  intros Hm Hk w. unfold bind. specialize (Hm w).
  destruct (m w) as [w1 [a|e]]; [|exact Hm].
  etrans; [exact Hm | apply Hk].
Qed.

Lemma respects_try_catch {A} (body : M A) (handler : error -> M A) :
  respects R body -> (forall e, respects R (handler e)) ->
  respects R (try_catch body handler).
Proof using Type*.
  intros Hb Hh w. unfold try_catch. specialize (Hb w).
  destruct (body w) as [w1 [a|e]]; [exact Hb|].
  etrans; [exact Hb | apply Hh].
Qed.

Lemma respects_for_of {A S} (l : list A) (body : S -> A -> M S) (s : S) :
  (forall s x, respects R (body s x)) -> respects R (for_of l body s).
Proof using Type*.
  intros Hbody. revert s. induction l as [|x l IH]; intros s.
  - apply respects_ret.
  - apply respects_bind; [apply Hbody | intros s'; apply IH].
Qed.

Lemma respects_fsQuery {A} (op : gmap path node -> A) : respects R (fsQuery op).
Proof using Type*. apply respects_bind; [apply respects_getFs | intros; apply respects_ret]. Qed.

Lemma respects_emit (e : event) :
  (forall w, R w (after w [e])) -> respects R (emit e).
Proof using Type*. intros He w. apply He. Qed.

Lemma respects_fsUpdate (op : gmap path node -> result (gmap path node)) :
  (forall w fs', op (fsys w) = Ok fs' -> R w (mkWorld fs' (trace w) (results w))) ->
  respects R (fsUpdate op).
Proof using Type*.
  intros Hop w. unfold fsUpdate, bind, getFs.
  destruct (op (fsys w)) as [fs'|e] eqn:Hrun; [by apply Hop | reflexivity].
Qed.

Lemma respects_resultStream_write (s : string) :
  (forall w, R w (mkWorld (fsys w) (trace w) (results w ++ [s]))) ->
  respects R (resultStream_write s).
Proof using Type*. intros Hs w. apply Hs. Qed.

End Respects.

(** Goes through a computation along its binds, handlers, loops and case
    distinctions; what is left is what the relation asks of the events, the
    file-system calls and the writes to the results. *)
Ltac respects_steps :=
  repeat first
    [ progress intros
    | assumption
    | match goal with H : forall _, respects _ _ |- _ => apply H end
    | match goal with |- PreOrder _ => typeclasses eauto end
    | apply respects_ret; solve [typeclasses eauto]
    | apply respects_throw; solve [typeclasses eauto]
    | apply respects_getFs; solve [typeclasses eauto]
    | apply respects_liftResult; solve [typeclasses eauto]
    | apply respects_fsQuery; solve [typeclasses eauto]
    | apply respects_emit
    | apply respects_fsUpdate
    | apply respects_resultStream_write
    | apply respects_bind; [typeclasses eauto | |]
    | apply respects_try_catch; [typeclasses eauto | |]
    | apply respects_for_of; [typeclasses eauto |]
    | match goal with
      | |- respects _ (if ?b then _ else _) => destruct b
      | |- respects _ (match ?x with _ => _ end) => destruct x
      end ].

#[export] Instance sameResults_preorder : PreOrder sameResults.
Proof. split; [intros w; reflexivity | intros w1 w2 w3 H1 H2; unfold sameResults in *; congruence]. Qed.

#[export] Instance sameFiles_preorder (P : path -> Prop) : PreOrder (sameFiles P).
Proof.
  split; [intros w x _; reflexivity|].
  intros w1 w2 w3 H1 H2 x Hx. rewrite (H2 x Hx). exact (H1 x Hx).
Qed.

#[export] Instance emitsOnly_preorder (Q : event -> Prop) : PreOrder (emitsOnly Q).
Proof.
  split.
  - intros w. exists []. split; [by rewrite app_nil_r | constructor].
  - intros w1 w2 w3 (es1 & H1 & Q1) (es2 & H2 & Q2). exists (es1 ++ es2).
    split; [by rewrite H2, H1, app_assoc | by apply Forall_app].
Qed.

Section Unchanged.
Context {env : Environment}.

Lemma ensureAudioCompatibility_sameResults (inputPath : path) :
  respects sameResults (ensureAudioCompatibility inputPath).
Proof.
  unfold ensureAudioCompatibility, inspect, normalize, execFfmpegCheck,
    execFfmpegConvert.
  respects_steps; reflexivity.
Qed.

Lemma transcribeAudio_sameResults (filePath : path) :
  respects sameResults (transcribeAudio filePath).
Proof.
  unfold transcribeAudio, client_send, for_await, audioStreamGenerator.
  cbn [AudioStream]. respects_steps; reflexivity.
Qed.
End Unchanged.

(** *** The number of chunks *)

Lemma createReadStream_length (hwm : nat) (data : list byte) :
  0 < hwm ->
  length (createReadStream hwm data) = (length data + (hwm - 1)) / hwm.
Proof.
  intros Hpos. funelim (createReadStream hwm data); simp createReadStream.
  - lia.
  - cbn [length]. rewrite Nat.div_small by lia. reflexivity.
  - cbn [length].
    match goal with IH : _ -> length _ = _ |- _ => rewrite IH by lia end.
    rewrite length_drop.
    replace (S n - 1) with n by lia.
    destruct (le_lt_dec n (length rest)) as [Hle|Hlt].
    + replace (S (length rest) + n) with ((length rest - n + n) + 1 * S n) by lia.
      rewrite Nat.div_add by lia. lia.
    + replace (length rest - n + n) with n by lia.
      rewrite (Nat.div_small n) by lia.
      apply (Nat.div_unique _ _ 1 (length rest)); lia.
Qed.

Section Chunks.
Context {env : Environment}.

(** X1. The audio source yields the file's length divided by 4096, rounded
    up, many chunks, and none for an empty file. *)
Theorem audioStreamGenerator_count (w : World) (filePath : path) (data : list byte) :
  FS.readFile (fsys w) filePath = Some data ->
  exists chunks : list AudioEvent,
    audioStreamGenerator filePath w = (w, Ok chunks)
    /\ length chunks = (length data + 4095) / 4096
    /\ (data = [] -> chunks = []).
Proof.
  intros Hread.
  exists (map (fun chunk => {| AudioChunk := chunk |}) (createReadStream 4096 data)).
  split; [|split].
  - unfold audioStreamGenerator, bind, getFs, ret. simpl. rewrite Hread. reflexivity.
  - rewrite length_map. apply (createReadStream_length 4096). lia.
  - intros ->. reflexivity.
Qed.
End Chunks.

(** *** Transcriptions that fail *)

Lemma results_good_or_bad (results : list Result) :
  Forall (fun r => IsPartial r = false -> Alternatives r <> []) results
  \/ Exists lacksAlternative results.
Proof.
  induction results as [|r results [IH|IH]].
  - left. constructor.
  - destruct (IsPartial r) eqn:Hp.
    + left. constructor; [congruence | exact IH].
    + destruct (Alternatives r) as [|a alts] eqn:Ha.
      * right. left. split; assumption.
      * left. constructor; [congruence | exact IH].
  - right. right. exact IH.
Qed.

Section Transcription.
Context {env : Environment}.

Lemma accumulate_results_throws (results : list Result) (transcript : string) (w : World) :
  Exists lacksAlternative results ->
  for_of results
    (fun transcript result =>
       if negb (IsPartial result) then
         match Alternatives result with
         | alternative :: _ =>
             ret (transcript +:+ (Transcript alternative +:+ " "))
         | [] =>
             throw (plainError
               "Cannot read properties of undefined (reading 'Transcript')")
         end
       else ret transcript) transcript w
  = (w, Throw transcriptTypeError).
Proof.
  intros Hbad. revert transcript.
  induction results as [|r results IH]; intros transcript; [inversion Hbad|].
  cbn [for_of]. unfold bind at 1.
  destruct (IsPartial r) eqn:Hp; cbn [negb].
  - unfold ret at 1. apply IH.
    apply Exists_cons in Hbad as [[Hf _]|Hbad]; [congruence | exact Hbad].
  - destruct (Alternatives r) as [|a alts] eqn:Ha.
    + reflexivity.
    + unfold ret at 1. apply IH.
      apply Exists_cons in Hbad as [[_ Hno]|Hbad]; [congruence | exact Hbad].
Qed.

Lemma accumulate_events_throws (events : list TranscriptEvent) (transcript : string)
      (w : World) :
  malformed events ->
  for_of events
    (fun transcript event =>
       let results := Results event in
       for_of results
         (fun transcript result =>
            if negb (IsPartial result) then
              match Alternatives result with
              | alternative :: _ =>
                  ret (transcript +:+ (Transcript alternative +:+ " "))
              | [] =>
                  throw (plainError
                    "Cannot read properties of undefined (reading 'Transcript')")
              end
            else ret transcript) transcript) transcript w
  = (w, Throw transcriptTypeError).
Proof.
  intros Hbad. revert transcript.
  induction events as [|[results] events IH]; intros transcript; [inversion Hbad|].
  cbn [for_of]. unfold bind at 1. cbn zeta. cbn [Results] in *.
  destruct (results_good_or_bad results) as [Hgood|Hhere].
  - rewrite (accumulate_results _ _ _ Hgood). apply IH.
    apply Exists_cons in Hbad as [Hhere|Hbad]; [|exact Hbad].
    cbn [Results] in Hhere. exfalso.
    apply Exists_exists in Hhere as (r & Hin & Hp & Hno).
    rewrite Forall_forall in Hgood. by apply (Hgood r Hin Hp).
  - rewrite (accumulate_results_throws _ _ _ Hhere). reflexivity.
Qed.

(** X2. When some final result of the stream has no alternative, reading
    its transcript throws; [transcribeAudio] catches that, logs it and
    returns [null], whatever was accumulated before. *)
Theorem transcribeAudio_malformed_result
        (w : World) (filePath : path) (data : list byte)
        (events : list TranscriptEvent) (fin : stream_end) :
  FS.readFile (fsys w) filePath = Some data ->
  answer data = Ok (events, fin) ->
  malformed events ->
  transcribeAudio filePath w
  = (after w [Console ERROR
                "Error during transcription: Cannot read properties of undefined (reading 'Transcript')"],
     Ok None).
Proof.
  intros Hread Hans Hbad.
  unfold transcribeAudio, try_catch, client_send, audioStreamGenerator, for_await.
  cbn [AudioStream LanguageCode MediaEncoding MediaSampleRateHertz].
  unfold bind at 1. unfold bind at 1. unfold bind at 1. unfold getFs at 1.
  rewrite Hread. unfold ret at 1. fold (answer data). rewrite Hans.
  cbn [liftResult]. unfold ret at 1. cbn [fst snd].
  unfold bind at 1. unfold bind at 1.
  rewrite (accumulate_events_throws _ _ _ Hbad). reflexivity.
Qed.

(** X3. When the audio file cannot be read, or the service refuses the
    request, [transcribeAudio] logs the message of the error and returns
    [null]. *)
Theorem transcribeAudio_no_stream (w : World) (filePath : path) :
  (FS.readFile (fsys w) filePath = None ->
   transcribeAudio filePath w
   = (after w [Console ERROR
                 ("Error during transcription: ENOENT: no such file or directory, open '"
                  +:+ Path.show filePath +:+ "'")],
      Ok None))
  /\ (forall data e,
        FS.readFile (fsys w) filePath = Some data ->
        answer data = Throw e ->
        transcribeAudio filePath w
        = (after w [Console ERROR ("Error during transcription: " +:+ message e)],
           Ok None)).
Proof.
  split.
  - intros Hread.
    unfold transcribeAudio, try_catch, client_send, audioStreamGenerator.
    cbn [AudioStream]. unfold bind at 1. unfold bind at 1. unfold bind at 1.
    unfold getFs at 1. rewrite Hread. reflexivity.
  - intros data e Hread Hans.
    unfold transcribeAudio, try_catch, client_send, audioStreamGenerator.
    cbn [AudioStream LanguageCode MediaEncoding MediaSampleRateHertz].
    unfold bind at 1. unfold bind at 1. unfold bind at 1. unfold getFs at 1.
    rewrite Hread. unfold ret at 1. fold (answer data). rewrite Hans. reflexivity.
Qed.

(** X4. [transcribeAudio] never throws: it returns a transcript and leaves
    the world as it was, or it returns [null] and has printed exactly one
    line, which starts with [Error during transcription:]. *)
Theorem transcribeAudio_outcomes (w : World) (filePath : path) :
  (exists transcript, transcribeAudio filePath w = (w, Ok (Some transcript)))
  \/ (exists text,
        transcribeAudio filePath w
        = (after w [Console ERROR ("Error during transcription: " +:+ text)], Ok None)).
Proof.
  remember (transcribeAudio filePath w) as run eqn:Hrun. revert Hrun.
  unfold transcribeAudio, try_catch, client_send, audioStreamGenerator, for_await.
  cbn [AudioStream LanguageCode MediaEncoding MediaSampleRateHertz].
  unfold bind at 1. unfold bind at 1. unfold bind at 1. unfold getFs at 1.
  destruct (FS.readFile (fsys w) filePath) as [data|].
  2: { intros ->. right.
       exists ("ENOENT: no such file or directory, open '" +:+ Path.show filePath +:+ "'").
       reflexivity. }
  unfold ret at 1. fold (answer data).
  destruct (answer data) as [[events fin]|e];
    [|intros ->; right; exists (message e); reflexivity].
  cbn [liftResult]. unfold ret at 1. cbn [fst snd]. unfold bind at 1. unfold bind at 1.
  match goal with |- context [for_of events ?body ?s w] =>
    assert (Hp : fst (for_of events body s w) = w);
      [| destruct (for_of events body s w) as [w1 [t|e1]]; simpl in Hp; subst w1 ] end.
  - apply for_of_pure. intros s x w0. apply for_of_pure.
    intros s0 [[] alts] w1; simpl; [reflexivity|]. destruct alts; reflexivity.
  - destruct fin as [|e]; intros ->;
      [left; eexists | right; exists (message e)]; reflexivity.
  - intros ->. right. exists (message e1). reflexivity.
Qed.
End Transcription.

(** *** The evaluation tool *)

Section Metrics.
Context {env : Environment}.

(** [calculateMetrics] as a case analysis on what the tool does. *)
Lemma calculateMetrics_run (referencePath hypothesisPath : path) (w : World) :
  calculateMetrics referencePath hypothesisPath w =
  let w1 := after w [Exec (AsrEval referencePath hypothesisPath)] in
  match asr_eval (FS.readFile (fsys w) referencePath)
                 (FS.readFile (fsys w) hypothesisPath) with
  | Ok output => (w1, Ok (Some output))
  | Throw e =>
      if JS.truthy_opt (stdout e) then (w1, Ok (stdout e))
      else match stderr e with
           | Some text =>
               if JS.truthy text then (w1, Ok (Some text))
               else (after w1 [Console ERROR ("Error calculating metrics: "
                                              +:+ message e)],
                     Ok None)
           | None =>
               (w1, Throw (plainError
                  "Cannot read properties of undefined (reading 'toString')"))
           end
  end.
Proof.
  unfold calculateMetrics, try_catch, execAsrEval, console_error.
  unfold bind at 1. unfold bind at 1. rewrite emit_run.
  unfold bind at 1, getFs at 1. cbn [after fsys].
  destruct (asr_eval _ _) as [output|e]; [reflexivity|].
  cbn [liftResult]. unfold throw at 1. unfold bind at 1.
  destruct (stdout e) as [[|c out]|]; cbn [JS.truthy_opt JS.truthy default].
  - destruct (stderr e) as [[|c text]|]; reflexivity.
  - reflexivity.
  - destruct (stderr e) as [[|c text]|]; reflexivity.
Qed.

(** X5. When the evaluation command fails, [calculateMetrics] returns what
    the command printed on its standard output if that is not empty,
    otherwise what it printed on its standard error if that is not empty;
    when both are empty it logs the error and returns [null]; and when the
    error carries no standard error at all, [calculateMetrics] itself
    throws. *)
Theorem calculateMetrics_failed_tool
        (referencePath hypothesisPath : path) (w : World) (e : error) :
  asr_eval (FS.readFile (fsys w) referencePath) (FS.readFile (fsys w) hypothesisPath)
  = Throw e ->
  let w1 := after w [Exec (AsrEval referencePath hypothesisPath)] in
  (forall out, stdout e = Some out -> out <> "" ->
     calculateMetrics referencePath hypothesisPath w = (w1, Ok (Some out)))
  /\ (forall text, JS.truthy_opt (stdout e) = false -> stderr e = Some text -> text <> "" ->
        calculateMetrics referencePath hypothesisPath w = (w1, Ok (Some text)))
  /\ (JS.truthy_opt (stdout e) = false -> stderr e = Some "" ->
        calculateMetrics referencePath hypothesisPath w
        = (after w1 [Console ERROR ("Error calculating metrics: " +:+ message e)],
           Ok None))
  /\ (JS.truthy_opt (stdout e) = false -> stderr e = None ->
        exists e', calculateMetrics referencePath hypothesisPath w = (w1, Throw e')).
Proof.
  intros Htool w1. rewrite calculateMetrics_run, Htool. fold w1. cbn zeta.
  repeat split.
  - intros out -> Hne. destruct out; [done | reflexivity].
  - intros text -> -> Hne. destruct text; [done | reflexivity].
  - intros -> ->. reflexivity.
  - intros -> ->. eauto.
Qed.

Lemma calculateMetrics_frame (referencePath hypothesisPath : path) (w w' : World)
      (r : result (option string)) :
  calculateMetrics referencePath hypothesisPath w = (w', r) ->
  fsys w' = fsys w /\ results w' = results w.
Proof.
  rewrite calculateMetrics_run. cbn zeta.
  destruct (asr_eval _ _) as [output|e]; [intros [= <- _]; done|].
  destruct (JS.truthy_opt (stdout e)); [intros [= <- _]; done|].
  destruct (stderr e) as [text|]; [|intros [= <- _]; done].
  destruct (JS.truthy text); intros [= <- _]; done.
Qed.
End Metrics.

(** *** The report of one file *)

Lemma readFile_insert_eq (fs : gmap path node) (p : path) (data : list byte) :
  p <> [] -> FS.readFile (<[p := File data]> fs) p = Some data.
Proof. intros Hne. apply readFile_Some. split; [exact Hne | apply lookup_insert_eq]. Qed.

Lemma readFile_insert_ne (fs : gmap path node) (p q : path) (n : node) :
  p <> q -> FS.readFile (<[p := n]> fs) q = FS.readFile fs q.
Proof.
  intros Hne. unfold FS.readFile, FS.stat. destruct q; [reflexivity|].
  rewrite lookup_insert_ne by done. reflexivity.
Qed.

Section Report.
Context {env : Environment}.

(** The part of [processFile] that follows a transcript that is not empty,
    lines 114-129, once the transcript has been written. *)
Lemma processFile_written
      (audioDir referenceDir : path) (file : string)
      (w w1 w2 : World) (audioPath : path) (transcript : string) :
  let baseName := Path.parseName file in
  let referencePath := Path.join referenceDir (baseName +:+ ".txt") in
  let outputPath := Path.join (Path.join cwd OUTPUT_DIR) (baseName +:+ ".txt") in
  let w3 :=
    mkWorld (<[outputPath := File (JS.utf8 transcript)]> (fsys w2))
            (trace w2 ++
             [Console LOG ("Transcription completed: output/" +:+ baseName +:+ ".txt")])
            (results w2) in
  ensureAudioCompatibility (Path.join audioDir file)
    (after w [Console LOG ("Processing: " +:+ file)]) = (w1, Ok (Some audioPath)) ->
  transcribeAudio audioPath w1 = (w2, Ok (Some transcript)) ->
  transcript <> "" ->
  FS.isDirectory (fsys w2) (Path.join cwd OUTPUT_DIR) = true ->
  FS.isDirectory (fsys w2) outputPath = false ->
  FS.existsSync (fsys w3) referencePath = true ->
  processFile audioDir referenceDir file w =
  match calculateMetrics referencePath outputPath w3 with
  | (w4, Ok evaluationOutput) =>
      if JS.truthy_opt evaluationOutput then
        let resultString :=
          "File: " +:+ baseName +:+ newline
          +:+ default "" evaluationOutput +:+ newline in
        (mkWorld (fsys w4)
                 (trace w4 ++ [Console LOG ("Results for " +:+ file +:+ ":" +:+ newline
                                            +:+ resultString)])
                 (results w4 ++ [resultString]),
         Ok tt)
      else (after w4 [Console ERROR ("Failed to calculate metrics for " +:+ file)], Ok tt)
  | (w4, Throw e) =>
      (after w4 [Console ERROR ("Error processing " +:+ file +:+ ": " +:+ message e)],
       Ok tt)
  end.
Proof.
  intros baseName referencePath outputPath w3 Hensure Htrans Hne Hout Hnodir Href.
  rewrite processFile_run. fold baseName referencePath outputPath.
  rewrite Hensure, Htrans. cbn [JS.truthy_opt default].
  destruct transcript as [|c t]; [done|]. cbn [JS.truthy].
  unfold try_catch, console_log.
  unfold bind at 1. unfold fsUpdate, bind at 1, getFs at 1.
  unfold FS.writeFileSync.
  assert (Path.dirname outputPath = Path.join cwd OUTPUT_DIR) as Hparent
    by apply dirname_join.
  rewrite Hnodir, Hparent, Hout.
  unfold putFs at 1. unfold bind at 1. rewrite emit_run.
  unfold bind at 1. unfold fsQuery, bind at 1, getFs at 1, ret at 1.
  match goal with |- context [FS.existsSync (fsys ?x) referencePath] =>
    change x with w3 end.
  rewrite Href. cbn [negb].
  unfold bind at 1.
  destruct (calculateMetrics referencePath outputPath w3) as [w4 [evaluationOutput|e]];
    [|reflexivity].
  destruct (JS.truthy_opt evaluationOutput); reflexivity.
Qed.

(** X6. When the transcript is not empty and is written, the reference
    exists and the evaluation command prints an output that is not empty,
    the loop appends the block [File: <base>], the output and a line end
    to the results, logs it, and ends the turn without an error. *)
Theorem processFile_metrics_report
        (audioDir referenceDir : path) (file : string)
        (w w1 w2 : World) (audioPath : path) (transcript output : string) :
  let baseName := Path.parseName file in
  let referencePath := Path.join referenceDir (baseName +:+ ".txt") in
  let outputPath := Path.join (Path.join cwd OUTPUT_DIR) (baseName +:+ ".txt") in
  let resultString := "File: " +:+ baseName +:+ newline +:+ output +:+ newline in
  ensureAudioCompatibility (Path.join audioDir file)
    (after w [Console LOG ("Processing: " +:+ file)]) = (w1, Ok (Some audioPath)) ->
  transcribeAudio audioPath w1 = (w2, Ok (Some transcript)) ->
  transcript <> "" ->
  FS.isDirectory (fsys w2) (Path.join cwd OUTPUT_DIR) = true ->
  FS.isDirectory (fsys w2) outputPath = false ->
  referencePath <> outputPath ->
  FS.existsSync (fsys w2) referencePath = true ->
  asr_eval (FS.readFile (fsys w2) referencePath) (Some (JS.utf8 transcript)) = Ok output ->
  output <> "" ->
  processFile audioDir referenceDir file w
  = (mkWorld (<[outputPath := File (JS.utf8 transcript)]> (fsys w2))
             (trace w2 ++
              [Console LOG ("Transcription completed: output/" +:+ baseName +:+ ".txt");
               Exec (AsrEval referencePath outputPath);
               Console LOG ("Results for " +:+ file +:+ ":" +:+ newline
                            +:+ resultString)])
             (results w2 ++ [resultString]),
     Ok tt).
Proof.
  intros baseName referencePath outputPath resultString
         Hensure Htrans Hne Hout Hnodir Hdiff Href Htool Houtput.
  rewrite (processFile_written _ _ _ _ _ _ _ _ Hensure Htrans Hne Hout Hnodir).
  2: { cbn [fsys]. rewrite existsSync_insert_ne by done. exact Href. }
  fold baseName referencePath outputPath.
  rewrite calculateMetrics_run. cbn [fsys].
  rewrite readFile_insert_ne by done.
  rewrite readFile_insert_eq by apply join_ne_nil.
  rewrite Htool. cbn zeta. cbn [JS.truthy_opt default].
  destruct output as [|c o]; [done|]. cbn [JS.truthy].
  unfold after. cbn [fsys trace results]. rewrite <- !app_assoc. reflexivity.
Qed.

(** X7. When the evaluation returns nothing, an empty output or throws,
    the loop logs [Failed to calculate metrics for <file>], or
    [Error processing <file>:] with the message of what was thrown, appends
    nothing to the results, and the transcript stays written. *)
Theorem processFile_no_report
        (audioDir referenceDir : path) (file : string)
        (w w1 w2 w4 : World) (audioPath : path) (transcript : string)
        (r : result (option string)) :
  let baseName := Path.parseName file in
  let referencePath := Path.join referenceDir (baseName +:+ ".txt") in
  let outputPath := Path.join (Path.join cwd OUTPUT_DIR) (baseName +:+ ".txt") in
  let w3 :=
    mkWorld (<[outputPath := File (JS.utf8 transcript)]> (fsys w2))
            (trace w2 ++
             [Console LOG ("Transcription completed: output/" +:+ baseName +:+ ".txt")])
            (results w2) in
  ensureAudioCompatibility (Path.join audioDir file)
    (after w [Console LOG ("Processing: " +:+ file)]) = (w1, Ok (Some audioPath)) ->
  transcribeAudio audioPath w1 = (w2, Ok (Some transcript)) ->
  transcript <> "" ->
  FS.isDirectory (fsys w2) (Path.join cwd OUTPUT_DIR) = true ->
  FS.isDirectory (fsys w2) outputPath = false ->
  FS.existsSync (fsys w3) referencePath = true ->
  calculateMetrics referencePath outputPath w3 = (w4, r) ->
  match r with Ok (Some output) => output = "" | _ => True end ->
  processFile audioDir referenceDir file w
  = (after w4
       [Console ERROR
          match r with
          | Throw e => "Error processing " +:+ file +:+ ": " +:+ message e
          | Ok _ => "Failed to calculate metrics for " +:+ file
          end],
     Ok tt)
  /\ results w4 = results w2
  /\ FS.readFile (fsys w4) outputPath = Some (JS.utf8 transcript).
Proof.
  intros baseName referencePath outputPath w3
         Hensure Htrans Hne Hout Hnodir Href Hcalc Hempty.
  split.
  - rewrite (processFile_written _ _ _ _ _ _ _ _ Hensure Htrans Hne Hout Hnodir Href).
    fold baseName referencePath outputPath w3. rewrite Hcalc.
    destruct r as [[output|]|e]; [subst output| |]; reflexivity.
  - apply calculateMetrics_frame in Hcalc as [Hfs Hres]. rewrite Hfs, Hres.
    split; [reflexivity|]. cbn [w3 fsys]. apply readFile_insert_eq, join_ne_nil.
Qed.

(** X8. When the transcript cannot be written, because [output] is not a
    directory or [output/<base>.txt] is one, the loop logs
    [Error processing <file>:] with the message of the failure and goes on
    to the next file; no evaluation is run. *)
Theorem processFile_unwritable
        (audioDir referenceDir : path) (file : string)
        (w w1 w2 : World) (audioPath : path) (transcript : string) :
  let baseName := Path.parseName file in
  let outputPath := Path.join (Path.join cwd OUTPUT_DIR) (baseName +:+ ".txt") in
  ensureAudioCompatibility (Path.join audioDir file)
    (after w [Console LOG ("Processing: " +:+ file)]) = (w1, Ok (Some audioPath)) ->
  transcribeAudio audioPath w1 = (w2, Ok (Some transcript)) ->
  transcript <> "" ->
  FS.isDirectory (fsys w2) (Path.join cwd OUTPUT_DIR) = false
  \/ FS.isDirectory (fsys w2) outputPath = true ->
  exists e,
    FS.writeFileSync (fsys w2) outputPath (JS.utf8 transcript) = Throw e
    /\ processFile audioDir referenceDir file w
       = (after w2 [Console ERROR ("Error processing " +:+ file +:+ ": " +:+ message e)],
          Ok tt).
Proof.
  intros baseName outputPath Hensure Htrans Hne Hbad.
  assert (exists e, FS.writeFileSync (fsys w2) outputPath (JS.utf8 transcript) = Throw e)
    as [e He].
  { unfold FS.writeFileSync.
    assert (Path.dirname outputPath = Path.join cwd OUTPUT_DIR) as -> by apply dirname_join.
    destruct (FS.isDirectory (fsys w2) outputPath); [eauto|].
    destruct Hbad as [-> | ?]; [eauto | discriminate]. }
  exists e. split; [exact He|].
  rewrite processFile_run. fold baseName outputPath.
  rewrite Hensure, Htrans. cbn [JS.truthy_opt default].
  destruct transcript as [|c t]; [done|]. cbn [JS.truthy].
  unfold try_catch. unfold bind at 1. unfold fsUpdate, bind at 1, getFs at 1.
  unfold id. rewrite He. reflexivity.
Qed.
End Report.

(** *** File names *)

Lemma length_app_string (s1 s2 : string) :
  String.length (s1 +:+ s2) = String.length s1 + String.length s2.
Proof. induction s1 as [|c s1 IH]; [reflexivity|]. rewrite app_cons. simpl. by rewrite IH. Qed.

Lemma slice_app (s1 s2 : string) : JS.slice (String.length s1) (s1 +:+ s2) = s2.
Proof. induction s1 as [|c s1 IH]; [by destruct s2|]. rewrite app_cons. exact IH. Qed.

Lemma sliceTo_app (s1 s2 : string) : JS.sliceTo (String.length s1) (s1 +:+ s2) = s1.
Proof.
  induction s1 as [|c s1 IH]; [by destruct s2|]. rewrite app_cons. simpl. by rewrite IH.
Qed.

Lemma lastIndexOf_wav (base : string) :
  JS.lastIndexOf "." (base +:+ ".wav") = Some (String.length base).
Proof.
  induction base as [|c base IH]; [reflexivity|].
  rewrite app_cons. simpl. rewrite IH. reflexivity.
Qed.

Lemma extnameOf_wav (base : string) :
  base <> "" -> Path.extnameOf (base +:+ ".wav") = ".wav".
Proof.
  intros Hne. unfold Path.extnameOf. rewrite lastIndexOf_wav.
  destruct base as [|c base]; [done|]. cbn [String.length].
  destruct (String.eqb _ "..") eqn:Heq.
  - apply String.eqb_eq in Heq. apply (f_equal String.length) in Heq.
    rewrite length_app_string in Heq. simpl in Heq. lia.
  - apply (slice_app (String c base)).
Qed.

Lemma basenameExt_wav (p : path) (base : string) :
  Path.basename p = base +:+ ".wav" -> base <> "" ->
  Path.extname p = ".wav" /\ Path.basenameExt p (Path.extname p) = base.
Proof.
  intros Hname Hne. unfold Path.extname. rewrite Hname, extnameOf_wav by done.
  split; [reflexivity|].
  unfold Path.basenameExt, JS.endsWith. rewrite Hname, length_app_string.
  replace (String.length base + String.length ".wav" - String.length ".wav")
    with (String.length base) by lia.
  rewrite slice_app, sliceTo_app. cbn [JS.truthy String.eqb Ascii.eqb Bool.eqb andb].
  cbn [String.length].
  assert ((4 <? String.length base + 4) = true) as ->.
  { apply Nat.ltb_lt. destruct base; [done | simpl; lia]. }
  assert ((4 <=? String.length base + 4) = true) as -> by (apply Nat.leb_le; lia).
  reflexivity.
Qed.

Lemma join_dirname_basename (p : path) :
  p <> [] -> Path.join (Path.dirname p) (Path.basename p) = p.
Proof.
  intros Hne. unfold Path.join, Path.dirname, Path.basename.
  symmetry. by apply app_removelast_last.
Qed.

Lemma basename_join (dir : path) (name : string) :
  Path.basename (Path.join dir name) = name.
Proof. unfold Path.basename, Path.join. apply last_last. Qed.

Lemma containerExt_wav (dir : path) (base : string) :
  base <> "" -> containerExt (Path.join dir (base +:+ ".wav")) = "wav".
Proof.
  intros Hne. unfold containerExt, Path.extname.
  rewrite basename_join, extnameOf_wav by done. reflexivity.
Qed.

Lemma sliceTo_nonempty (n : nat) (s : string) :
  0 < n -> s <> "" -> JS.sliceTo n s <> "".
Proof. destruct n; [lia|]. destruct s; [done|]. discriminate. Qed.

Lemma basenameExt_nonempty (p : path) (ext : string) :
  Path.basename p <> "" -> Path.basenameExt p ext <> "".
Proof.
  intros Hne. unfold Path.basenameExt.
  destruct (_ && _ && (String.length ext <? String.length (Path.basename p))) eqn:Hc;
    [|exact Hne].
  apply andb_prop in Hc as [_ Hlt]. apply Nat.ltb_lt in Hlt.
  apply sliceTo_nonempty; [lia | exact Hne].
Qed.

Lemma sliceTo_slice (n : nat) (s : string) : JS.sliceTo n s +:+ JS.slice n s = s.
Proof.
  revert n. induction s as [|c s IH]; intros [|n]; try reflexivity.
  simpl. rewrite app_cons. by rewrite IH.
Qed.

Lemma length_slice (n : nat) (s : string) :
  String.length (JS.slice n s) = String.length s - n.
Proof. revert n. induction s as [|c s IH]; intros [|n]; simpl; auto. Qed.

Lemma sliceTo_length (s : string) : JS.sliceTo (String.length s) s = s.
Proof. induction s as [|c s IH]; [reflexivity|]. simpl. by rewrite IH. Qed.

Lemma lastIndexOf_Some (c : ascii) (s : string) (i : nat) :
  JS.lastIndexOf c s = Some i ->
  i < String.length s /\ exists rest, JS.slice i s = String c rest.
Proof.
  revert i. induction s as [|a s IH]; intros i; [discriminate|]. simpl.
  destruct (JS.lastIndexOf c s) as [j|].
  - intros [= <-]. destruct (IH j eq_refl) as [Hlt Hrest]. split; [lia | exact Hrest].
  - destruct (Ascii.eqb a c) eqn:Heq; [|discriminate]. intros [= <-].
    apply Ascii.eqb_eq in Heq as ->. split; [lia | by exists s].
Qed.

(** What [path.extname] gives is the empty string, or the part of the name
    from a dot that is not its first character. *)
Lemma extnameOf_cases (name : string) :
  Path.extnameOf name = ""
  \/ exists i rest, 0 < i < String.length name
                    /\ Path.extnameOf name = JS.slice i name
                    /\ JS.slice i name = String "." rest.
Proof.
  unfold Path.extnameOf.
  destruct (JS.lastIndexOf "." name) as [[|i]|] eqn:Hdot; [by left| |by left].
  destruct (String.eqb name ".."); [by left|]. right.
  apply lastIndexOf_Some in Hdot as [Hlt [rest Hrest]].
  exists (S i), rest. repeat split; [lia | done | done].
Qed.

Lemma parseName_cases (name : string) :
  (Path.extnameOf name = "" /\ Path.parseName name = name)
  \/ exists i rest, 0 < i < String.length name
                    /\ Path.extnameOf name = String "." rest
                    /\ JS.slice i name = String "." rest
                    /\ Path.parseName name = JS.sliceTo i name.
Proof.
  unfold Path.parseName.
  destruct (extnameOf_cases name) as [->|(i & rest & Hi & -> & Hrest)].
  - left. split; [done|]. cbn [String.length]. rewrite Nat.sub_0_r. apply sliceTo_length.
  - right. exists i, rest. rewrite length_slice.
    replace (String.length name - (String.length name - i)) with i by lia. done.
Qed.

Lemma parseName_extnameOf (name : string) :
  Path.parseName name +:+ Path.extnameOf name = name.
Proof.
  destruct (parseName_cases name) as [[-> ->]|(i & rest & _ & -> & <- & ->)].
  - apply app_empty_r.
  - apply sliceTo_slice.
Qed.

Lemma basenameExt_extname (p : path) :
  Path.basenameExt p (Path.extname p) = Path.parseName (Path.basename p).
Proof.
  unfold Path.basenameExt, Path.extname. set (name := Path.basename p).
  destruct (parseName_cases name) as [[-> ->]|(i & rest & Hi & Hext & Hrest & Hname)].
  - reflexivity.
  - unfold Path.parseName in *. rewrite Hext in *. unfold JS.endsWith.
    assert (Hlen : String.length (String "." rest) = String.length name - i)
      by (rewrite <- Hrest; apply length_slice).
    rewrite Hlen. replace (String.length name - (String.length name - i)) with i by lia.
    rewrite Hrest, String.eqb_refl. cbn [JS.truthy andb].
    assert ((String.length name - i <=? String.length name) = true) as ->
      by (apply Nat.leb_le; lia).
    assert ((String.length name - i <? String.length name) = true) as ->
      by (apply Nat.ltb_lt; lia).
    reflexivity.
Qed.

(** *** Upper and lower case *)

Lemma lowerChar_dot (a : ascii) :
  Ascii.eqb (JS.lowerChar a) "." = Ascii.eqb a ".".
Proof. destruct a as [[] [] [] [] [] [] [] []]; reflexivity. Qed.

Lemma lowerChar_idem (a : ascii) : JS.lowerChar (JS.lowerChar a) = JS.lowerChar a.
Proof. destruct a as [[] [] [] [] [] [] [] []]; reflexivity. Qed.

Lemma toLowerCase_idem (s : string) :
  JS.toLowerCase (JS.toLowerCase s) = JS.toLowerCase s.
Proof. induction s as [|c s IH]; [reflexivity|]. simpl. by rewrite lowerChar_idem, IH. Qed.

Lemma lastIndexOf_lower (s : string) :
  JS.lastIndexOf "." (JS.toLowerCase s) = JS.lastIndexOf "." s.
Proof.
  induction s as [|c s IH]; [reflexivity|]. simpl. by rewrite IH, lowerChar_dot.
Qed.

Lemma slice_lower (n : nat) (s : string) :
  JS.slice n (JS.toLowerCase s) = JS.toLowerCase (JS.slice n s).
Proof. revert n. induction s as [|c s IH]; intros [|n]; simpl; auto. Qed.

Lemma dotdot_lower (s : string) :
  String.eqb (JS.toLowerCase s) ".." = String.eqb s "..".
Proof.
  destruct s as [|a [|b [|c s]]]; try reflexivity;
    cbn [JS.toLowerCase String.eqb]; rewrite !lowerChar_dot; reflexivity.
Qed.

Lemma extnameOf_lower (name : string) :
  Path.extnameOf (JS.toLowerCase name) = JS.toLowerCase (Path.extnameOf name).
Proof.
  unfold Path.extnameOf. rewrite lastIndexOf_lower, dotdot_lower.
  destruct (JS.lastIndexOf "." name) as [[|i]|]; try reflexivity.
  destruct (String.eqb name ".."); [reflexivity | apply slice_lower].
Qed.

(** X9. The filter on the entries of the audio directory does not depend
    on the case of the file name. *)
Theorem isSupported_ignores_case (file : string) :
  isSupported (JS.toLowerCase file) = isSupported file.
Proof.
  unfold isSupported. by rewrite extnameOf_lower, slice_lower, toLowerCase_idem.
Qed.

(** X10. An entry that passes the filter is its base name, a dot and an
    extension whose lower case is one of the supported formats; its base
    name, [path.parse(file).name], is not empty. *)
Theorem isSupported_name (file : string) :
  isSupported file = true ->
  exists ext,
    file = Path.parseName file +:+ "." +:+ ext
    /\ Path.parseName file <> ""
    /\ Path.extnameOf file = "." +:+ ext
    /\ In (JS.toLowerCase ext) SUPPORTED_AUDIO_FORMATS.
Proof.
  unfold isSupported. intros Hsup.
  destruct (parseName_cases file) as [[Hext _]|(i & rest & Hi & Hext & Hrest & Hname)].
  - rewrite Hext in Hsup. discriminate.
  - exists rest. pose proof (parseName_extnameOf file) as Hfile.
    rewrite Hext in Hfile, Hsup. repeat split.
    + change ("." +:+ rest) with (String "." rest). by rewrite Hfile.
    + rewrite Hname. apply sliceTo_nonempty; [lia|]. destruct file; [simpl in Hi; lia | done].
    + exact Hext.
    + cbn [JS.slice] in Hsup. unfold JS.arrayIncludes in Hsup.
      apply existsb_exists in Hsup as (format & Hin & Heq).
      apply String.eqb_eq in Heq as ->. exact Hin.
Qed.

Lemma parseName_wav (base : string) :
  base <> "" -> Path.parseName (base +:+ ".wav") = base.
Proof.
  intros Hne. unfold Path.parseName. rewrite extnameOf_wav by done.
  rewrite length_app_string. cbn [String.length].
  replace (String.length base + 4 - 4) with (String.length base) by lia.
  apply sliceTo_app.
Qed.

(** *** The path that is returned *)

Section Compatibility.
Context {env : Environment}.

Lemma inspect_after (w : World) (es : list event) (inputPath : path) :
  snd (inspect inputPath (after w es)) = snd (inspect inputPath w).
Proof.
  rewrite !inspect_run. destruct (String.eqb _ "wav"); reflexivity.
Qed.

(** What [ensureAudioCompatibility] has done when it returns a path. *)
Lemma ensureAudioCompatibility_Some (w w' : World) (inputPath p : path) :
  ensureAudioCompatibility inputPath w = (w', Ok (Some p)) ->
  (p = inputPath
   /\ snd (inspect inputPath w) = Ok true
   /\ fsys w' = fsys w)
  \/ (p = Path.join (Path.dirname inputPath)
                    (Path.basenameExt inputPath (Path.extname inputPath) +:+ ".wav")
      /\ snd (inspect inputPath w) = Ok false
      /\ exists w1, fsys w1 = fsys w /\ normalize inputPath w1 = (w', Ok (Some p))).
Proof.
  rewrite ensureAudioCompatibility_run.
  destruct (inspect inputPath _) as [w1 [[]|e]] eqn:Hinspect.
  - intros [= <- <-]. left.
    pose proof (inspect_after w
      [Console LOG ("Checking audio file format: " +:+ Path.show inputPath)] inputPath) as Ha.
    rewrite Hinspect in Ha. apply inspect_fsys in Hinspect as [Hfs _].
    repeat split; [by rewrite <- Ha | exact Hfs].
  - destruct (normalize inputPath w1) as [w2 [r|e]] eqn:Hnorm; [|discriminate].
    intros [= <- ->]. right.
    pose proof (inspect_after w
      [Console LOG ("Checking audio file format: " +:+ Path.show inputPath)] inputPath) as Ha.
    rewrite Hinspect in Ha. apply inspect_fsys in Hinspect as [Hfs _].
    destruct (normalize_Ok _ _ _ _ Hnorm) as (_ & _ & _ & _ & [= ->] & _).
    repeat split; [by rewrite <- Ha|]. exists w1. split; [exact Hfs | exact Hnorm].
  - discriminate.
Qed.

Lemma ensureAudioCompatibility_readable (w w' : World) (inputPath p : path) :
  ensureAudioCompatibility inputPath w = (w', Ok (Some p)) ->
  exists data, FS.readFile (fsys w') p = Some data.
Proof.
  intros Hrun.
  apply ensureAudioCompatibility_Some in Hrun
    as [(-> & Hok & Hfs) | (-> & _ & w1 & _ & Hnorm)].
  - rewrite Hfs. rewrite inspect_run in Hok.
    destruct (String.eqb _ "wav"); [|discriminate]. cbn [snd] in Hok.
    destruct (FS.readFile (fsys w) inputPath) as [data|]; [eauto | discriminate].
  - destruct (normalize_Ok _ _ _ _ Hnorm) as (_ & converted & _ & _ & _ & _ & Hnew & _).
    eauto.
Qed.

(** X11. A path that [ensureAudioCompatibility] returns names a regular
    file of the world it leaves, so that the audio source can read it. *)
Theorem ensureAudioCompatibility_returns_file (w w' : World) (inputPath p : path) :
  ensureAudioCompatibility inputPath w = (w', Ok (Some p)) ->
  exists data chunks,
    FS.readFile (fsys w') p = Some data
    /\ audioStreamGenerator p w' = (w', Ok chunks).
Proof.
  intros Hrun.
  destruct (ensureAudioCompatibility_readable _ _ _ _ Hrun) as [data Hdata].
  exists data. eexists. split; [exact Hdata|].
  unfold audioStreamGenerator, bind, getFs. rewrite Hdata. reflexivity.
Qed.

(** X12. A path that [ensureAudioCompatibility] returns has the extension
    [wav]; when the probe finds the file at that path in the target
    encoding, a second call returns the same path after the check alone,
    without a conversion. *)
Theorem ensureAudioCompatibility_stable (w w' : World) (inputPath p : path) :
  ensureAudioCompatibility inputPath w = (w', Ok (Some p)) ->
  Path.basename inputPath <> "" ->
  (forall data, FS.readFile (fsys w') p = Some data ->
     exists ffmpegOutput,
       ffmpeg_probe p data = Ok ffmpegOutput /\ reportsTarget ffmpegOutput = true) ->
  containerExt p = "wav"
  /\ ensureAudioCompatibility p w'
     = (after w' [Console LOG ("Checking audio file format: " +:+ Path.show p);
                  Exec (FfmpegCheck p);
                  Console LOG ("Audio file is already compatible: " +:+ Path.show p)],
        Ok (Some p)).
Proof.
  intros Hrun Hname Hprobe.
  assert (Hext : containerExt p = "wav").
  { apply ensureAudioCompatibility_Some in Hrun as [(-> & Hok & _) | (-> & _)].
    - rewrite inspect_run in Hok.
      destruct (String.eqb _ "wav") eqn:Hext; [|discriminate].
      by apply String.eqb_eq.
    - apply containerExt_wav, basenameExt_nonempty, Hname. }
  split; [exact Hext|].
  destruct (ensureAudioCompatibility_readable _ _ _ _ Hrun) as [data Hdata].
  destruct (Hprobe data Hdata) as (out & Hout & Htarget).
  rewrite ensureAudioCompatibility_run, inspect_run, Hext.
  cbn [String.eqb Ascii.eqb Bool.eqb after fsys]. rewrite Hdata, Hout, Htarget.
  rewrite !after_after. reflexivity.
Qed.

(** X13. A file named [<base>.wav] that the check does not find compatible
    is never converted: the converted path is the input path, and
    [ensureAudioCompatibility] returns [null]. *)
Theorem ensureAudioCompatibility_wav_in_place
        (w : World) (inputPath : path) (base : string) :
  inputPath <> [] ->
  Path.basename inputPath = base +:+ ".wav" ->
  base <> "" ->
  snd (inspect inputPath w) <> Ok true ->
  snd (ensureAudioCompatibility inputPath w) = Ok None.
Proof.
  intros Hnil Hname Hbase Hnot.
  destruct (basenameExt_wav _ _ Hname Hbase) as [_ Hstrip].
  assert (Hsame : Path.join (Path.dirname inputPath)
                    (Path.basenameExt inputPath (Path.extname inputPath) +:+ ".wav")
                  = inputPath).
  { rewrite Hstrip, <- Hname. by apply join_dirname_basename. }
  rewrite ensureAudioCompatibility_run.
  pose proof (inspect_after w
    [Console LOG ("Checking audio file format: " +:+ Path.show inputPath)] inputPath) as Ha.
  destruct (inspect inputPath (after w _)) as [w1 [[]|e]]; cbn [snd] in Ha.
  - congruence.
  - destruct (normalize_in_place w1 inputPath Hsame) as (w2 & e & ->). reflexivity.
  - reflexivity.
Qed.

(** X14. The path [ensureAudioCompatibility] returns for an entry of the
    audio directory is the entry itself or [<base>.wav] beside it, where
    [<base>] is the base name under which the loop writes the transcript
    and looks for the reference. *)
Theorem ensureAudioCompatibility_keeps_stem
        (w w' : World) (audioDir : path) (file : string) (p : path) :
  file <> "" ->
  ensureAudioCompatibility (Path.join audioDir file) w = (w', Ok (Some p)) ->
  (p = Path.join audioDir file
   \/ p = Path.join audioDir (Path.parseName file +:+ ".wav"))
  /\ Path.dirname p = audioDir
  /\ Path.parseName (Path.basename p) = Path.parseName file.
Proof.
  intros Hfile Hrun.
  apply ensureAudioCompatibility_Some in Hrun as [(-> & _) | (-> & _)].
  - rewrite dirname_join, basename_join. auto.
  - rewrite basenameExt_extname, !dirname_join, !basename_join.
    split; [by right|]. split; [reflexivity|].
    apply parseName_wav.
    destruct (parseName_cases file) as [[_ ->]|(i & rest & Hi & _ & _ & ->)]; [done|].
    apply sliceTo_nonempty; [lia | done].
Qed.
End Compatibility.

(** *** The files a run leaves alone *)





Section Files.
Context {env : Environment}.






End Files.

(** *** The blocks of the results file *)

Lemma reported_same (w w' : World) :
  results w' = results w -> reported [] w w'.
Proof.
  intros H. exists []. cbn. rewrite app_nil_r. repeat split; [done|constructor|constructor].
Qed.

Lemma reported_trans (l1 l2 : list string) (w1 w2 w3 : World) :
  reported l1 w1 w2 -> reported l2 w2 w3 -> reported (l1 ++ l2) w1 w3.
Proof.
  intros (r1 & H1 & S1 & N1) (r2 & H2 & S2 & N2). exists (r1 ++ r2).
  rewrite !map_app. repeat split.
  - by rewrite H2, H1, app_assoc.
  - by apply sublist_app.
  - by apply Forall_app.
Qed.

Lemma reported_weaken (l l' : list string) (w w' : World) :
  sublist l l' -> reported l w w' -> reported l' w w'.
Proof.
  intros Hsub (r & H & S & N). exists r. repeat split; [done| |done].
  by etrans.
Qed.

Section Reports.
Context {env : Environment}.

Lemma processFile_reported (audioDir referenceDir : path) (file : string) (w : World) :
  reported [file] w (fst (processFile audioDir referenceDir file w)).
Proof.
  assert (Hsame : forall w', results w' = results w -> reported [file] w w').
  { intros w' H. apply (reported_weaken []); [apply sublist_nil_l | by apply reported_same]. }
  unfold processFile. cbn zeta. unfold bind at 1. unfold console_log at 1.
  rewrite emit_run. cbn iota beta.
  unfold bind at 1.
  pose proof (ensureAudioCompatibility_sameResults (Path.join audioDir file)
                (after w [Console LOG ("Processing: " +:+ file)])) as He.
  destruct (ensureAudioCompatibility _ _) as [w1 [[audioPath|]|e]]; cbn in He |- *;
    [|by apply Hsame|by apply Hsame].
  unfold try_catch.
  match goal with |- context [(bind ?m ?k) w1] => set (body := bind m k) end.
  assert (Hbody : reported [file] w (fst (body w1))).
  2:{ destruct (body w1) as [w2 [a|e]]; [exact Hbody|].
      cbn in *. destruct Hbody as (r & H & Hr). by exists r. }
  subst body. unfold bind at 1.
  pose proof (transcribeAudio_sameResults audioPath w1) as Ht.
  destruct (transcribeAudio audioPath w1) as [w2 [transcript|e]]; cbn in Ht |- *;
    [|apply Hsame; congruence].
  destruct (JS.truthy_opt transcript); [|apply Hsame; cbn; congruence].
  unfold bind at 1, fsUpdate at 1, bind at 1, getFs at 1. cbn iota beta.
  destruct (FS.writeFileSync _ _ _) as [fs3|e]; cbn; [|apply Hsame; congruence].
  unfold bind at 1. cbn.
  destruct (negb _); [apply Hsame; cbn; congruence|].
  unfold bind at 1.
  match goal with |- context [calculateMetrics ?r ?h ?w3] =>
    destruct (calculateMetrics r h w3) as [w4 [evaluationOutput|e]] eqn:Hc;
    apply calculateMetrics_frame in Hc as [_ Hc]; cbn in Hc |- * end;
    [|apply Hsame; congruence].
  destruct evaluationOutput as [[|c output]|]; cbn; try (apply Hsame; cbn; congruence).
  exists [(file, String c output)]. cbn [map fst snd]. repeat split.
  - unfold resultString. rewrite Hc, Ht, He. reflexivity.
  - reflexivity.
  - by repeat constructor.
Qed.

Lemma for_of_reported (audioDir referenceDir : path) (files : list string) (w : World) :
  reported files w
    (fst (for_of files (fun _ file => processFile audioDir referenceDir file) tt w)).
Proof.
  revert w. induction files as [|file files IH]; intros w.
  - by apply reported_same.
  - cbn [for_of]. unfold bind.
    pose proof (processFile_reported audioDir referenceDir file w) as Hfile.
    destruct (processFile audioDir referenceDir file w) as [w1 [[]|e]]; cbn in Hfile |- *.
    + apply (reported_trans [file] files w w1); [exact Hfile | apply IH].
    + apply (reported_weaken [file]); [|exact Hfile].
      apply sublist_skip, sublist_nil_l.
Qed.

(** X16. A run of [processFiles] only appends to the results: at most one
    block per supported entry of the audio directory, in the order of the
    listing, each made of [File: <base>] and an evaluation output that is
    not empty. *)
Theorem processFiles_reports (audioDir referenceDir : path) (w : World) (names : list string) :
  FS.readdirSync (fsys w) audioDir = Ok names ->
  exists reports : list (string * string),
    results (fst (processFiles audioDir referenceDir w))
    = results w ++ map (fun r => resultString (Path.parseName (fst r)) (snd r)) reports
    /\ sublist (map fst reports) (List.filter isSupported names)
    /\ Forall (fun r => snd r <> "") reports.
Proof.
  intros Hnames. unfold processFiles. unfold bind at 1, bind at 1, getFs.
  rewrite Hnames. cbn [liftResult ret].
  apply for_of_reported.
Qed.

End Reports.

(** *** The commands of a run *)





Section Commands.
Context {env : Environment}.


End Commands.

(** *** The output directory *)

Section OutputDir.
Context {env : Environment}.

(** X18. In a working directory that exists, the start of the script leaves
    a file-system entry at [output]: a world that already has one is left
    as it is, otherwise a directory is created there; no regular file
    changes, nothing is printed or reported, and running the step again
    changes nothing. *)
Theorem ensureOutputDir_creates (w : World) :
  FS.isDirectory (fsys w) cwd = true ->
  exists w',
    ensureOutputDir w = (w', Ok tt)
    /\ FS.existsSync (fsys w') (Path.join cwd OUTPUT_DIR) = true
    /\ (FS.existsSync (fsys w) (Path.join cwd OUTPUT_DIR) = true -> w' = w)
    /\ (FS.existsSync (fsys w) (Path.join cwd OUTPUT_DIR) = false ->
        FS.isDirectory (fsys w') (Path.join cwd OUTPUT_DIR) = true)
    /\ (forall x, FS.readFile (fsys w') x = FS.readFile (fsys w) x)
    /\ trace w' = trace w /\ results w' = results w
    /\ ensureOutputDir w' = (w', Ok tt).
Proof.
  intros Hcwd. unfold ensureOutputDir, bind, fsQuery, bind, getFs, ret.
  destruct (FS.existsSync (fsys w) (Path.join cwd OUTPUT_DIR)) eqn:Hex; cbn [negb].
  - exists w. rewrite Hex. cbn [negb]. repeat split; done.
  - unfold fsUpdate, bind, getFs, FS.mkdirSync. rewrite Hex, dirname_join, Hcwd.
    cbn [liftResult ret putFs].
    eexists. split; [reflexivity|]. cbn [fsys trace results].
    assert (Hnew : FS.existsSync (<[Path.join cwd OUTPUT_DIR := Dir]> (fsys w))
                     (Path.join cwd OUTPUT_DIR) = true).
    { unfold FS.existsSync, FS.stat, Path.join.
      destruct (cwd ++ [OUTPUT_DIR]) eqn:Hp; [by destruct cwd|].
      by rewrite lookup_insert_eq. }
    rewrite Hnew. cbn [negb]. repeat split; try done.
    + intros _. unfold FS.isDirectory, FS.stat, Path.join.
      destruct (cwd ++ [OUTPUT_DIR]) eqn:Hp; [by destruct cwd|].
      by rewrite lookup_insert_eq.
    + intros x. unfold FS.readFile, FS.stat. destruct x as [|s x]; [done|].
      destruct (decide (Path.join cwd OUTPUT_DIR = s :: x)) as [<-|Hne].
      * rewrite lookup_insert_eq. unfold FS.existsSync, FS.stat in Hex.
        unfold Path.join in *. destruct (cwd ++ [OUTPUT_DIR]) eqn:Hp; [by destruct cwd|].
        by destruct (fsys w !! _).
      * by rewrite lookup_insert_ne.
Qed.
End OutputDir.

(** *** The further theorems at the sample environment *)

Lemma audioStreamGenerator_count_witness :
  exists chunks : list AudioEvent,
    audioStreamGenerator ["data"; "audio"; "b.wav"] Sample.w0
    = (Sample.w0, Ok chunks)
    /\ length chunks = 1.
Proof.
  destruct (audioStreamGenerator_count Sample.w0 ["data"; "audio"; "b.wav"]
              (Sample.bytes "RIFF audio"))
    as (chunks & Hrun & Hlen & _).
  - vm_compute. reflexivity.
  - exists chunks. split; [exact Hrun | exact Hlen].
Defined.

Lemma transcribeAudio_malformed_result_witness :
  @transcribeAudio
    (Sample.envWith false false
       (Ok ([final "hello"; {| Results := [ {| IsPartial := false; Alternatives := [] |} ] |}],
            EndOfStream)))
    ["data"; "audio"; "b.wav"] Sample.w0
  = (after Sample.w0
       [Console ERROR
          "Error during transcription: Cannot read properties of undefined (reading 'Transcript')"],
     Ok None).
Proof.
  apply (@transcribeAudio_malformed_result
           (Sample.envWith false false
              (Ok ([final "hello";
                    {| Results := [ {| IsPartial := false; Alternatives := [] |} ] |}],
                   EndOfStream)))
           Sample.w0 ["data"; "audio"; "b.wav"] (Sample.bytes "RIFF audio")
           [final "hello"; {| Results := [ {| IsPartial := false; Alternatives := [] |} ] |}]
           EndOfStream).
  - vm_compute. reflexivity.
  - reflexivity.
  - right. left. left. split; reflexivity.
Defined.

Lemma transcribeAudio_no_stream_witness :
  @transcribeAudio (Sample.envWith false false (Throw (plainError "BadRequestException")))
    ["data"; "audio"; "b.wav"] Sample.w0
  = (after Sample.w0 [Console ERROR "Error during transcription: BadRequestException"],
     Ok None)
  /\ @transcribeAudio Sample.env ["data"; "audio"; "z.wav"] Sample.w0
     = (after Sample.w0
          [Console ERROR
             "Error during transcription: ENOENT: no such file or directory, open '/data/audio/z.wav'"],
        Ok None).
Proof.
  split.
  - apply (proj2 (@transcribeAudio_no_stream
                    (Sample.envWith false false (Throw (plainError "BadRequestException")))
                    Sample.w0 ["data"; "audio"; "b.wav"])
             (Sample.bytes "RIFF audio") (plainError "BadRequestException")).
    + vm_compute. reflexivity.
    + reflexivity.
  - apply (proj1 (@transcribeAudio_no_stream Sample.env Sample.w0 ["data"; "audio"; "z.wav"])).
    vm_compute. reflexivity.
Defined.

Lemma calculateMetrics_failed_tool_witness :
  @calculateMetrics Sample.env ["data"; "ref"; "z.txt"] ["home"; "output"; "z.txt"] Sample.w0
  = (after Sample.w0 [Exec (AsrEval ["data"; "ref"; "z.txt"] ["home"; "output"; "z.txt"])],
     Ok (Some "no such file")).
Proof.
  destruct (@calculateMetrics_failed_tool Sample.env
              ["data"; "ref"; "z.txt"] ["home"; "output"; "z.txt"] Sample.w0
              {| message := "Command failed: asr-eval";
                 stdout := Some ""; stderr := Some "no such file" |})
    as (_ & Hstderr & _).
  - vm_compute. reflexivity.
  - apply (Hstderr "no such file"); [reflexivity | reflexivity | discriminate].
Defined.

Lemma processFile_metrics_report_witness :
  results (fst (@processFile Sample.env ["data"; "audio"] ["data"; "ref"] "a.mp3" Sample.w0))
  = [resultString "a" "WER: 0"].
Proof.
  rewrite (@processFile_metrics_report Sample.env
             ["data"; "audio"] ["data"; "ref"] "a.mp3"
             Sample.w0
             (fst (@ensureAudioCompatibility Sample.env ["data"; "audio"; "a.mp3"]
                     (after Sample.w0 [Console LOG "Processing: a.mp3"])))
             (fst (@ensureAudioCompatibility Sample.env ["data"; "audio"; "a.mp3"]
                     (after Sample.w0 [Console LOG "Processing: a.mp3"])))
             ["data"; "audio"; "a.wav"] "hello world" "WER: 0").
  - reflexivity.
  - vm_compute. reflexivity.
  - vm_compute. reflexivity.
  - discriminate.
  - vm_compute. reflexivity.
  - vm_compute. reflexivity.
  - discriminate.
  - vm_compute. reflexivity.
  - vm_compute. reflexivity.
  - discriminate.
Defined.

Lemma processFile_no_report_witness :
  @processFile Quiet.env ["data"; "audio"] ["data"; "ref"] "a.mp3" Sample.w0
  = (after
       (fst (@calculateMetrics Quiet.env ["data"; "ref"; "a.txt"] ["home"; "output"; "a.txt"]
               (mkWorld
                  (<[["home"; "output"; "a.txt"] := File (JS.utf8 "hello world")]>
                     (fsys (fst (@ensureAudioCompatibility Quiet.env
                                   ["data"; "audio"; "a.mp3"]
                                   (after Sample.w0 [Console LOG "Processing: a.mp3"])))))
                  (trace (fst (@ensureAudioCompatibility Quiet.env
                                 ["data"; "audio"; "a.mp3"]
                                 (after Sample.w0 [Console LOG "Processing: a.mp3"])))
                   ++ [Console LOG "Transcription completed: output/a.txt"])
                  [])))
       [Console ERROR "Failed to calculate metrics for a.mp3"],
     Ok tt)
  /\ results (fst (@processFile Quiet.env ["data"; "audio"] ["data"; "ref"] "a.mp3"
                     Sample.w0)) = [].
Proof.
  destruct (@processFile_no_report Quiet.env
              ["data"; "audio"] ["data"; "ref"] "a.mp3"
              Sample.w0
              (fst (@ensureAudioCompatibility Quiet.env ["data"; "audio"; "a.mp3"]
                      (after Sample.w0 [Console LOG "Processing: a.mp3"])))
              (fst (@ensureAudioCompatibility Quiet.env ["data"; "audio"; "a.mp3"]
                      (after Sample.w0 [Console LOG "Processing: a.mp3"])))
              (fst (@calculateMetrics Quiet.env
                      ["data"; "ref"; "a.txt"] ["home"; "output"; "a.txt"]
                      (mkWorld
                         (<[["home"; "output"; "a.txt"] := File (JS.utf8 "hello world")]>
                            (fsys (fst (@ensureAudioCompatibility Quiet.env
                                          ["data"; "audio"; "a.mp3"]
                                          (after Sample.w0
                                             [Console LOG "Processing: a.mp3"])))))
                         (trace (fst (@ensureAudioCompatibility Quiet.env
                                        ["data"; "audio"; "a.mp3"]
                                        (after Sample.w0
                                           [Console LOG "Processing: a.mp3"])))
                          ++ [Console LOG "Transcription completed: output/a.txt"])
                         [])))
              ["data"; "audio"; "a.wav"] "hello world" (Ok (Some "")))
    as (Hrun & Hres & _).
  - vm_compute. reflexivity.
  - vm_compute. reflexivity.
  - discriminate.
  - vm_compute. reflexivity.
  - vm_compute. reflexivity.
  - vm_compute. reflexivity.
  - vm_compute. reflexivity.
  - reflexivity.
  - split; [exact Hrun|]. rewrite Hrun. exact Hres.
Defined.

Lemma processFile_unwritable_witness :
  exists e,
    @processFile Sample.env ["data"; "audio"] ["data"; "ref"] "b.wav"
      (mkWorld (delete ["home"; "output"] Sample.fs0) [] [])
    = (after (mkWorld (delete ["home"; "output"] Sample.fs0) [] [])
         [Console LOG "Processing: b.wav";
          Console LOG "Checking audio file format: /data/audio/b.wav";
          Exec (FfmpegCheck ["data"; "audio"; "b.wav"]);
          Console LOG "Audio file is already compatible: /data/audio/b.wav";
          Console ERROR ("Error processing b.wav: " +:+ message e)],
       Ok tt).
Proof.
  destruct (@processFile_unwritable Sample.env
              ["data"; "audio"] ["data"; "ref"] "b.wav"
              (mkWorld (delete ["home"; "output"] Sample.fs0) [] [])
              (fst (@ensureAudioCompatibility Sample.env ["data"; "audio"; "b.wav"]
                      (after (mkWorld (delete ["home"; "output"] Sample.fs0) [] [])
                             [Console LOG "Processing: b.wav"])))
              (fst (@ensureAudioCompatibility Sample.env ["data"; "audio"; "b.wav"]
                      (after (mkWorld (delete ["home"; "output"] Sample.fs0) [] [])
                             [Console LOG "Processing: b.wav"])))
              ["data"; "audio"; "b.wav"] "hello world")
    as (e & _ & Hrun).
  - vm_compute. reflexivity.
  - vm_compute. reflexivity.
  - discriminate.
  - left. vm_compute. reflexivity.
  - exists e. rewrite Hrun. reflexivity.
Defined.

Lemma isSupported_name_witness :
  exists ext,
    "Talk.MP3" = Path.parseName "Talk.MP3" +:+ "." +:+ ext
    /\ Path.parseName "Talk.MP3" <> ""
    /\ Path.extnameOf "Talk.MP3" = "." +:+ ext
    /\ In (JS.toLowerCase ext) SUPPORTED_AUDIO_FORMATS.
Proof. apply (isSupported_name "Talk.MP3"). reflexivity. Defined.

Lemma ensureAudioCompatibility_returns_file_witness :
  exists data chunks,
    FS.readFile
      (fsys (fst (@ensureAudioCompatibility Sample.env ["data"; "audio"; "a.mp3"] Sample.w0)))
      ["data"; "audio"; "a.wav"] = Some data
    /\ audioStreamGenerator ["data"; "audio"; "a.wav"]
         (fst (@ensureAudioCompatibility Sample.env ["data"; "audio"; "a.mp3"] Sample.w0))
       = (fst (@ensureAudioCompatibility Sample.env ["data"; "audio"; "a.mp3"] Sample.w0),
          Ok chunks).
Proof.
  apply (@ensureAudioCompatibility_returns_file Sample.env Sample.w0
           (fst (@ensureAudioCompatibility Sample.env ["data"; "audio"; "a.mp3"] Sample.w0))
           ["data"; "audio"; "a.mp3"] ["data"; "audio"; "a.wav"]).
  vm_compute. reflexivity.
Defined.

Lemma ensureAudioCompatibility_stable_witness :
  containerExt ["data"; "audio"; "a.wav"] = "wav"
  /\ snd (@ensureAudioCompatibility Sample.env ["data"; "audio"; "a.wav"]
            (fst (@ensureAudioCompatibility Sample.env ["data"; "audio"; "a.mp3"] Sample.w0)))
     = Ok (Some ["data"; "audio"; "a.wav"]).
Proof.
  destruct (@ensureAudioCompatibility_stable Sample.env Sample.w0
              (fst (@ensureAudioCompatibility Sample.env ["data"; "audio"; "a.mp3"] Sample.w0))
              ["data"; "audio"; "a.mp3"] ["data"; "audio"; "a.wav"])
    as [Hext Hrun].
  - vm_compute. reflexivity.
  - discriminate.
  - intros data Hdata. vm_compute in Hdata. injection Hdata as <-.
    eexists. split; [reflexivity | vm_compute; reflexivity].
  - split; [exact Hext|]. rewrite Hrun. reflexivity.
Defined.

Lemma ensureAudioCompatibility_wav_in_place_witness :
  snd (@ensureAudioCompatibility Sample.env ["data"; "audio"; "c.wav"] Sample.w0) = Ok None.
Proof.
  apply (@ensureAudioCompatibility_wav_in_place Sample.env Sample.w0
           ["data"; "audio"; "c.wav"] "c").
  - discriminate.
  - reflexivity.
  - discriminate.
  - vm_compute. discriminate.
Defined.

Lemma ensureAudioCompatibility_keeps_stem_witness :
  Path.dirname ["data"; "audio"; "a.wav"] = ["data"; "audio"]
  /\ Path.parseName (Path.basename ["data"; "audio"; "a.wav"]) = Path.parseName "a.mp3".
Proof.
  destruct (@ensureAudioCompatibility_keeps_stem Sample.env Sample.w0
              (fst (@ensureAudioCompatibility Sample.env ["data"; "audio"; "a.mp3"] Sample.w0))
              ["data"; "audio"] "a.mp3" ["data"; "audio"; "a.wav"])
    as (_ & Hdir & Hstem).
  - discriminate.
  - vm_compute. reflexivity.
  - split; [exact Hdir | exact Hstem].
Defined.


Lemma processFiles_reports_witness :
  exists reports : list (string * string),
    results (fst (@processFiles Sample.env ["data"; "audio"] ["data"; "ref"] Sample.w0))
    = map (fun r => resultString (Path.parseName (fst r)) (snd r)) reports
    /\ sublist (map fst reports) ["c.wav"; "b.wav"; "a.mp3"].
Proof.
  destruct (@processFiles_reports Sample.env ["data"; "audio"] ["data"; "ref"] Sample.w0
              ["c.wav"; "b.wav"; "notes.txt"; "a.mp3"])
    as (reports & Hres & Hsub & _).
  - vm_compute. reflexivity.
  - exists reports. split; [exact Hres | exact Hsub].
Defined.


Lemma ensureOutputDir_creates_witness :
  exists w',
    @ensureOutputDir Sample.env (mkWorld (delete ["home"; "output"] Sample.fs0) [] [])
    = (w', Ok tt)
    /\ FS.isDirectory (fsys w') ["home"; "output"] = true.
Proof.
  destruct (@ensureOutputDir_creates Sample.env
              (mkWorld (delete ["home"; "output"] Sample.fs0) [] []))
    as (w' & Hrun & _ & _ & Hdir & _).
  - vm_compute. reflexivity.
  - exists w'. split; [exact Hrun|]. apply Hdir. vm_compute. reflexivity.
Defined.
